(** * Daily Activity Tracker: persistence store and analytics

    A shallow embedding of [src/js/storage.js] (both versions of the
    [Storage] module: the synchronous one over [localStorage] and the
    asynchronous one over a user document with a [localStorage] mirror) and of
    the [Analytics] module of [src/js/ui.js].

    Modelling conventions.
    - A JavaScript record (an action, an activity, a patch) is a finite map
      from property names to JSON values; a property that is absent or holds
      [undefined] is a failed lookup, which is what [JSON.stringify] makes of
      it when the record is persisted.
    - Values are the JSON scalars and arrays of strings (the [fields] of an
      action). Numbers are integers (identifiers and timestamps come from
      [Date.now()]).
    - [localStorage] holds, per key, either nothing or the JSON text of an
      array of records; the text is identified with the array it encodes.
    - The clock ([Date.now()], [new Date()]) is an explicit argument. *)

From stdpp Require Import gmap strings list pretty sorting.
From Stdlib Require Import ZArith Lia Ascii.

Local Open Scope Z_scope.
Local Open Scope string_scope.
Local Open Scope list_scope.

(** ** JSON values and records *)

Inductive JVal : Type :=
  | VNull
  | VBool (b : bool)
  | VNum (n : Z)
  | VStr (s : string)
  | VArr (l : list string).

#[global] Instance JVal_eq_dec : EqDecision JVal.
Proof. solve_decision. Defined.

(** A record; [o !! "k"] is the property read [o.k], [None] for [undefined]. *)
Abbreviation Obj := (gmap string JVal).

(** JavaScript truthiness of [o.k]. *)
Definition truthy (v : option JVal) : bool :=
  match v with
  | None | Some VNull => false
  | Some (VBool b) => b
  | Some (VNum n) => negb (Z.eqb n 0)
  | Some (VStr s) => negb (String.eqb s "")
  | Some (VArr _) => true
  end.

(** [x === y] (and the SameValueZero test of [Array.prototype.includes]; the
    two differ on NaN only) between a value read from the store and a value
    that comes from elsewhere: primitives compare by value, arrays by
    reference, and two arrays obtained from separate [JSON.parse] calls are
    never the same reference. *)
Definition strict_eq (x y : option JVal) : bool :=
  match x, y with
  | Some (VArr _), _ | _, Some (VArr _) => false
  | _, _ => bool_decide (x = y)
  end.

(** [o.k === s] for a string [s]. *)
Definition prop_is (k : string) (s : string) (o : Obj) : bool :=
  bool_decide (o !! k = Some (VStr s)).

(** [{ ...o, ...patch }]: the keys of both, [patch] winning. *)
Definition spread (o patch : Obj) : Obj := patch ∪ o.

(** A trailing [k: src.k] in an object literal: the property is set to
    [src.k]; when [src.k] is [undefined] the property holds [undefined]. *)
Definition pin (k : string) (src : Obj) (o : Obj) : Obj :=
  match src !! k with
  | Some v => <[k := v]> o
  | None => delete k o
  end.

(** [arr.findIndex(p)], with the element found. *)
Definition findIndex (p : Obj → bool) (l : list Obj) : option (nat * Obj) :=
  list_find (λ o, p o = true) l.

(** [arr.map(a => a.id)]. *)
Definition ids (l : list Obj) : list (option JVal) := (λ o : Obj, o !! "id") <$> l.

(** [idList.includes(v)]. *)
Definition includes (idList : list (option JVal)) (v : option JVal) : bool :=
  existsb (λ x, strict_eq x v) idList.

(** An object with optional [activities] and [actions] arrays: the two
    [localStorage] entries, the data of the user document, the argument of
    [persist], and an import payload. *)
Record Collections : Type := mkCollections {
  activities : option (list Obj);
  actions : option (list Obj)
}.

Definition noCollections : Collections :=
  {| activities := None; actions := None |}.

(** How a call ends: with a value, or with an exception (for an [async]
    function, a rejected promise). *)
Inductive outcome (A : Type) : Type :=
  | Returned (a : A)
  | Raised.
Arguments Returned {A} a.
Arguments Raised {A}.

(** ** The synchronous backend ([localStorage] only) *)

Module SyncStorage.

Definition saveActivities (l : list Obj) (st : Collections) : Collections :=
  {| activities := Some l; actions := actions st |}.

Definition getActivities (st : Collections) : list Obj :=
  default [] (activities st).

Definition addActivity (t_id t_ts : Z) (activity : Obj) (st : Collections)
  : Obj * Collections :=
  let acts := getActivities st in
  let activity := <["id" := VStr (pretty t_id)]> activity in
  let activity := <["timestamp" := VNum t_ts]> activity in
  (activity, saveActivities (acts ++ [activity]) st).

Definition deleteActivity (id : string) (st : Collections) : Collections :=
  let acts := getActivities st in
  saveActivities (List.filter (λ a, negb (prop_is "id" id a)) acts) st.

Definition updateActivity (id : string) (updatedActivity : Obj) (st : Collections)
  : option Obj * Collections :=
  let acts := getActivities st in
  match findIndex (prop_is "id" id) acts with
  | Some (index, originalActivity) =>
      let mergedActivity :=
        pin "timestamp" originalActivity
          (pin "id" originalActivity (spread originalActivity updatedActivity)) in
      (Some mergedActivity, saveActivities (<[index := mergedActivity]> acts) st)
  | None => (None, st)
  end.

Definition getActivitiesByDate (dateStr : string) (st : Collections) : list Obj :=
  List.filter (prop_is "date" dateStr) (getActivities st).

Definition getActivitiesByActionId (actionId : string) (st : Collections) : list Obj :=
  List.filter (prop_is "actionId" actionId) (getActivities st).

Definition clearAllData (st : Collections) : Collections :=
  {| activities := None; actions := actions st |}.

Definition saveActions (l : list Obj) (st : Collections) : Collections :=
  {| activities := activities st; actions := Some l |}.

Definition mkAction (id name type category : string) (fields : list string) : Obj :=
  <["id" := VStr id]> (<["name" := VStr name]> (<["type" := VStr type]>
    (<["category" := VStr category]> (<["fields" := VArr fields]> ∅)))).

Definition defaultActions : list Obj :=
  [ mkAction "exercise" "Exercise" "good" "Physical" ["exerciseType"; "duration"; "notes"];
    mkAction "diet-healthy" "Healthy Food" "good" "Nutrition" ["notes"];
    mkAction "diet-unhealthy" "Unhealthy Food" "bad" "Nutrition" ["notes"];
    mkAction "work" "Work Time" "neutral" "Work" ["startTime"; "endTime"] ].

Definition getActions (st : Collections) : list Obj * Collections :=
  match actions st with
  | Some l => (l, st)
  | None => (defaultActions, saveActions defaultActions st)
  end.

Definition addAction (now : Z) (action : Obj) (st : Collections)
  : Obj * Collections :=
  let '(acts, st) := getActions st in
  let action :=
    if truthy (action !! "id") then action
    else <["id" := VStr ("action-" +:+ pretty now)]> action in
  (action, saveActions (acts ++ [action]) st).

Definition updateAction (id : string) (updatedAction : Obj) (st : Collections)
  : option Obj * Collections :=
  let '(acts, st) := getActions st in
  match findIndex (prop_is "id" id) acts with
  | Some (index, original) =>
      let merged := spread original updatedAction in
      (Some merged, saveActions (<[index := merged]> acts) st)
  | None => (None, st)
  end.

Definition deleteAction (id : string) (st : Collections) : bool * Collections :=
  let acts := getActivities st in
  let hasActivities :=
    existsb (λ a, prop_is "actionId" id a || prop_is "type" id a) acts in
  if hasActivities then (false, st)
  else
    let '(actions, st) := getActions st in
    (true, saveActions (List.filter (λ a, negb (prop_is "id" id a)) actions) st).

(** [data] is [None] for a [null]/[undefined] argument. The [try] block
    cannot raise on arrays of records, so its [catch] arm is not reached. *)
Definition importData (data : option Collections) (replace : bool) (st : Collections)
  : bool * Collections :=
  match data with
  | Some {| activities := Some inActivities; actions := Some inActions |} =>
      if replace then
        (true, saveActions inActions (saveActivities inActivities st))
      else
        let existingActivities := getActivities st in
        let '(existingActions, st) := getActions st in
        let existingActivityIds := ids existingActivities in
        let newActivities :=
          List.filter (λ a, negb (includes existingActivityIds (a !! "id"))) inActivities in
        let existingActionIds := ids existingActions in
        let newActions :=
          List.filter (λ a, negb (includes existingActionIds (a !! "id"))) inActions in
        (true, saveActions (existingActions ++ newActions)
                 (saveActivities (existingActivities ++ newActivities) st))
  | _ => (false, st)
  end.

Definition migrateOne (activity : Obj) : Obj :=
  if truthy (activity !! "actionId") then activity
  else if prop_is "type" "exercise" activity then <["actionId" := VStr "exercise"]> activity
  else if prop_is "type" "diet" activity then
    <["actionId" := VStr (if prop_is "foodQuality" "healthy" activity
                          then "diet-healthy" else "diet-unhealthy")]> activity
  else if prop_is "type" "work" activity then <["actionId" := VStr "work"]> activity
  else activity.

Definition migrateData (st : Collections) : Collections :=
  let acts := getActivities st in
  let migrated := existsb (λ a, negb (truthy (a !! "actionId"))) acts in
  if migrated then saveActivities (migrateOne <$> acts) st else st.

Definition getActivitiesByLocalDate (dateStr : string) (st : Collections) : list Obj :=
  getActivitiesByDate dateStr st.

Definition getActivitiesByType (type : string) (st : Collections) : list Obj :=
  List.filter (prop_is "type" type) (getActivities st).

(** The object [exportData] returns; [exportDate] is
    [new Date().toISOString()], read from the clock. *)
Record Export : Type := mkExport {
  exported : Collections;
  version : string;
  exportDate : string
}.

Definition exportData (isoNow : string) (st : Collections) : Export * Collections :=
  let acts := getActivities st in
  let '(catalog, st) := getActions st in
  ({| exported := {| activities := Some acts; actions := Some catalog |};
      version := "1.0";
      exportDate := isoNow |}, st).

End SyncStorage.

(** ** The asynchronous backend (user document with a [localStorage] mirror)

    Every operation is a sequence of awaited steps over one store; the steps
    are threaded through a state monad whose computations either return a
    value or raise (a rejected promise). *)

Module AsyncStorage.

(** [user]: whether [window.auth.currentUser] is set; [doc]: the data of
    the user document, [None] while the document does not exist;
    [cache]: the two [localStorage] entries. *)
Record Cloud : Type := mkCloud {
  user : bool;
  doc : option Collections;
  cache : Collections
}.

Definition Async (A : Type) : Type := Cloud → outcome A * Cloud.

Definition ret {A} (a : A) : Async A := λ st, (Returned a, st).
Definition raise {A} : Async A := λ st, (Raised, st).
Definition bind {A B} (m : Async A) (k : A → Async B) : Async B :=
  λ st, match m st with
        | (Returned a, st') => k a st'
        | (Raised, st') => (Raised, st')
        end.

Notation "'await' x '<-' m ';;' k" := (bind m (λ x, k))
  (at level 100, x name, m at next level, k at level 200, right associativity).
Notation "'run' m ';;' k" := (bind m (λ _, k))
  (at level 100, m at next level, k at level 200, right associativity).

(** [setDoc(docRef, data, { merge: true })]: the fields present in [data]
    replace those of the document, the others are kept; a missing document
    is created. *)
Definition setDoc_merge (data : Collections) (d : option Collections) : Collections :=
  let old := default noCollections d in
  {| activities := match activities data with Some l => Some l | None => activities old end;
     actions := match actions data with Some l => Some l | None => actions old end |}.

(** An array, even an empty one, is truthy, so every field present in
    [data] is mirrored. *)
Definition persist (data : Collections) : Async unit := λ st,
  (Returned (),
   {| user := user st;
      doc := if user st then Some (setDoc_merge data (doc st)) else doc st;
      cache := setDoc_merge data (Some (cache st)) |}).

Definition getActivities : Async (list Obj) := λ st,
  (Returned
     (if user st
      then match doc st with Some d => default [] (activities d) | None => [] end
      else default [] (activities (cache st))),
   st).

Definition getActions : Async (list Obj) := λ st,
  (Returned
     (if user st
      then match doc st with Some d => default [] (actions d) | None => [] end
      else default [] (actions (cache st))),
   st).

Definition addActivity (t_id t_ts : Z) (activity : Obj) : Async Obj :=
  await acts <- getActivities ;;
  let activity := <["id" := VStr (pretty t_id)]> activity in
  let activity := <["timestamp" := VNum t_ts]> activity in
  run persist {| activities := Some (acts ++ [activity]); actions := None |} ;;
  ret activity.

Definition deleteActivity (id : string) : Async unit :=
  await acts <- getActivities ;;
  let acts := List.filter (λ a, negb (prop_is "id" id a)) acts in
  persist {| activities := Some acts; actions := None |}.

Definition addAction (now : Z) (action : Obj) : Async Obj :=
  await acts <- getActions ;;
  let action := <["id" := VStr (pretty now)]> action in
  run persist {| activities := None; actions := Some (acts ++ [action]) |} ;;
  ret action.

Definition deleteAction (id : string) : Async unit :=
  await acts <- getActions ;;
  let acts := List.filter (λ a, negb (prop_is "id" id a)) acts in
  persist {| activities := None; actions := Some acts |}.

(** [options.merge] is the flag [merge]; [jsonData] is [None] for a
    [null]/[undefined] argument. Reading a property of [null] and spreading
    an [undefined] [jsonData.activities] both raise a [TypeError]. *)
Definition importData (jsonData : option Collections) (merge : bool) : Async bool :=
  await currentActivities <- (if merge then getActivities else ret []) ;;
  await currentActions <- (if merge then getActions else ret []) ;;
  match jsonData with
  | Some {| activities := Some inActivities; actions := inActions |} =>
      run persist {| activities := Some (currentActivities ++ inActivities);
                       actions := Some (default currentActions inActions) |} ;;
      ret true
  | _ => raise
  end.

Definition updateAction (id : string) (updatedData : Obj) : Async unit :=
  await acts <- getActions ;;
  match findIndex (prop_is "id" id) acts with
  | Some (index, original) =>
      let merged := <["id" := VStr id]> (spread original updatedData) in
      persist {| activities := None; actions := Some (<[index := merged]> acts) |}
  | None => ret ()
  end.

Definition updateActivity (id : string) (updatedData : Obj) : Async unit :=
  await acts <- getActivities ;;
  match findIndex (prop_is "id" id) acts with
  | Some (index, original) =>
      let merged := <["id" := VStr id]> (spread original updatedData) in
      persist {| activities := Some (<[index := merged]> acts); actions := None |}
  | None => ret ()
  end.

Definition clearAllData : Async unit :=
  persist {| activities := Some []; actions := Some [] |}.

(** The object that [exportData] serialises and hands to the browser as a
    download; the returned value stands for the content of that file. *)
Definition exportData : Async Collections :=
  await acts <- getActivities ;;
  await catalog <- getActions ;;
  ret {| activities := Some acts; actions := Some catalog |}.

End AsyncStorage.

(** ** Analytics (written against the synchronous backend)

    Each function starts with [Storage.getActivities()]; the collection read
    is the argument [acts]. *)

Module Analytics.

(** *** Dates as the host computes them *)

(** Milliseconds per day, [1000 * 60 * 60 * 24]. *)
Definition DAY_MS : Z := 1000 * 60 * 60 * 24.

Definition is_leap (y : Z) : bool :=
  (y mod 4 =? 0)%Z && (negb (y mod 100 =? 0)%Z || (y mod 400 =? 0)%Z).

Definition days_in_month (y m : Z) : Z :=
  match m with
  | 1 | 3 | 5 | 7 | 8 | 10 | 12 => 31
  | 4 | 6 | 9 | 11 => 30
  | 2 => if is_leap y then 29 else 28
  | _ => 0
  end.

(** Day number of a civil date, counted from 1970-01-01 (the day part of
    the time value of a [Date]); years are counted from March so that the
    leap day comes last. *)
Definition days_from_civil (y m d : Z) : Z :=
  let y' := if (m <=? 2)%Z then y - 1 else y in
  let mp := (m + 9) mod 12 in
  365 * y' + y' / 4 - y' / 100 + y' / 400 + (153 * mp + 2) / 5 + d - 719469.

Definition digit (c : ascii) : option Z :=
  let n := Z.of_N (N_of_ascii c) in
  if (48 <=? n)%Z && (n <=? 57)%Z then Some (n - 48) else None.

(** The fields of a date-only string [YYYY-MM-DD], when it names a day
    that exists. *)
Definition parse_civil (s : string) : option (Z * Z * Z) :=
  match s with
  | String y1 (String y2 (String y3 (String y4 (String c1
      (String m1 (String m2 (String c2 (String d1 (String d2 EmptyString))))))))) =>
      if Ascii.eqb c1 "-" && Ascii.eqb c2 "-" then
        y1 ← digit y1; y2 ← digit y2; y3 ← digit y3; y4 ← digit y4;
        m1 ← digit m1; m2 ← digit m2; d1 ← digit d1; d2 ← digit d2;
        let y := 1000 * y1 + 100 * y2 + 10 * y3 + y4 in
        let m := 10 * m1 + m2 in
        let d := 10 * d1 + d2 in
        if (1 <=? m)%Z && (m <=? 12)%Z && (1 <=? d)%Z && (d <=? days_in_month y m)%Z
        then Some (y, m, d) else None
      else None
  | _ => None
  end.

(** Day number of a date-only string. *)
Definition parse_date (s : string) : option Z :=
  '(y, m, d) ← parse_civil s; Some (days_from_civil y m d).

(** [String(v)]. *)
Definition to_str (v : JVal) : string :=
  match v with
  | VNull => "null"
  | VBool true => "true"
  | VBool false => "false"
  | VNum n => pretty n
  | VStr s => s
  | VArr l => String.concat "," l
  end.

(** Time value of [new Date(v)], [None] for an Invalid Date. A date-only
    string is midnight UTC of that day. Of the string forms only
    [YYYY-MM-DD], the one the date input of the entry form produces, is
    recognised; what the host makes of other strings is left open by
    ECMAScript, and they are taken as invalid here. *)
Definition date_time (v : JVal) : option Z :=
  match v with
  | VNull => Some 0
  | VBool b => Some (if b then 1 else 0)
  | VNum n => Some n
  | VStr s => (λ d, d * DAY_MS) <$> parse_date s
  | VArr l => (λ d, d * DAY_MS) <$> parse_date (String.concat "," l)
  end.

(** [Math.ceil(a / b)] for integers [a] and [b > 0]. *)
Definition ceil_div (a b : Z) : Z := - ((- a) / b).

(** [String(n).padStart(2, '0')]. *)
Definition padStart2 (s : string) : string :=
  match String.length s with
  | O => "00"
  | S O => "0" +:+ s
  | _ => s
  end.

(** The template [`${year}-${month}-${day}`] over the local calendar
    fields of a [Date], month and day padded. *)
Definition local_date_string (c : Z * Z * Z) : string :=
  let '(y, m, d) := c in
  pretty y +:+ "-" +:+ padStart2 (pretty m) +:+ "-" +:+ padStart2 (pretty d).

(** The local calendar fields after [date.setDate(date.getDate() - 1)]. *)
Definition day_before (c : Z * Z * Z) : Z * Z * Z :=
  let '(y, m, d) := c in
  if (1 <? d)%Z then (y, m, d - 1)
  else if (1 <? m)%Z then (y, m - 1, days_in_month y (m - 1))
  else (y - 1, 12, 31).

(** *** calculateActionStreak *)

(** [[...new Set(values)]]: first occurrences, in order. *)
Definition set_of (values : list JVal) : list JVal :=
  foldl (λ acc v, if includes (Some <$> acc) (Some v) then acc else acc ++ [v]) [] values.

(** [arr.sort()] with the default comparator: by [String(v)], stable. *)
Fixpoint insert_sorted (v : JVal) (l : list JVal) : list JVal :=
  match l with
  | [] => [v]
  | w :: l' =>
      if String.leb (to_str v) (to_str w) then v :: w :: l'
      else w :: insert_sorted v l'
  end.

Definition sort (l : list JVal) : list JVal := foldr insert_sorted [] l.

(** [.filter(activity => activity.date).map(activity => activity.date)]. *)
Definition date_of (a : Obj) : option JVal :=
  if truthy (a !! "date") then a !! "date" else None.

Definition streak_match (actionId : string) (a : Obj) : bool :=
  prop_is "actionId" actionId a
  || (prop_is "type" "exercise" a && String.eqb actionId "exercise").

Definition action_dates (acts : list Obj) (actionId : string) : list JVal :=
  sort (set_of (omap date_of (List.filter (streak_match actionId) acts))).

(** The counting loop, which walks the sorted dates from the last one
    down; [later] is the list from the current index down to index 0. *)
Fixpoint count_consecutive (later : list JVal) : Z :=
  match later with
  | currentDate :: (prevDate :: _) as rest =>
      match date_time currentDate, date_time prevDate with
      | Some c, Some p =>
          if (ceil_div (c - p) DAY_MS =? 1)%Z then 1 + count_consecutive rest else 0
      | _, _ => 0
      end
  | _ => 0
  end.

(** [today] holds the local calendar fields (year, month 1-12, day) of
    [new Date()]. *)
Definition calculateActionStreak (today : Z * Z * Z) (acts : list Obj) (actionId : string) : Z :=
  if (length acts =? 0)%nat then 0
  else
    let actionDates := action_dates acts actionId in
    if (length actionDates =? 0)%nat then 0
    else
      let todayStr := local_date_string today in
      let actionToday := includes (Some <$> actionDates) (Some (VStr todayStr)) in
      let lastActionDate := last actionDates in
      let yesterdayStr := local_date_string (day_before today) in
      if negb actionToday && negb (strict_eq lastActionDate (Some (VStr yesterdayStr)))
      then 0
      else 1 + count_consecutive (reverse actionDates).

(** *** getActivityCountsLast30Days *)

(** [thirtyDaysAgo] once [thirtyDaysAgo.setDate(now.getDate() - 30)] has
    run. [now] is the time value of [new Date()] and [offsetNow] the
    milliseconds by which local time is ahead of UTC at that instant.
    [setDate] works on the local calendar: it keeps the local time of day
    and moves the local day back by 30, to the local time
    [now + offsetNow - 30 * DAY_MS]. [offsetThen] is the offset in effect at
    that local time; it differs from [offsetNow] when daylight-saving time
    began or ended in between. *)
Definition thirtyDaysAgo (now offsetNow offsetThen : Z) : Z :=
  now + offsetNow - 30 * DAY_MS - offsetThen.

(** The filter of the last 30 days. *)
Definition in_last_30_days (now offsetNow offsetThen : Z) (a : Obj) : bool :=
  match date_of a with
  | None => false
  | Some v =>
      match date_time v with
      | Some activityDate =>
          (thirtyDaysAgo now offsetNow offsetThen <=? activityDate)%Z
          && (activityDate <=? now)%Z
      | None => false
      end
  end.

(** The property name [activity.actionId || activity.type] becomes. *)
Definition count_key (a : Obj) : string :=
  match (if truthy (a !! "actionId") then a !! "actionId" else a !! "type") with
  | Some v => to_str v
  | None => "undefined"
  end.

(** A value of the [counts] object: a number or, under a name that
    [Object.prototype] defines, the text that [+ 1] makes of the inherited
    function, which is the source text of that function followed by the
    digit 1, once for every addition. *)
Inductive Count : Type :=
| Number (n : Z)
| Text (ones : nat).

(** [counts] is a plain object, so reading [counts[name]] finds the members
    of [Object.prototype] under their names. These are the function-valued
    ones; all are truthy. *)
Definition inherited_functions : list string :=
  [ "constructor"; "hasOwnProperty"; "isPrototypeOf"; "propertyIsEnumerable";
    "toLocaleString"; "toString"; "valueOf";
    "__defineGetter__"; "__defineSetter__"; "__lookupGetter__"; "__lookupSetter__" ].

(** [counts[actionId] = (counts[actionId] || 0) + 1] on the own properties
    of [counts]. Under the name [__proto__] the read gives [Object.prototype]
    and the assignment of the resulting text goes to the inherited setter,
    which ignores a value that is not an object: no property is made. *)
Definition count_one (counts : gmap string Count) (a : Obj) : gmap string Count :=
  let actionId := count_key a in
  if String.eqb actionId "__proto__" then counts
  else
    let next :=
      match counts !! actionId with
      | Some (Number n) => Number ((if (n =? 0)%Z then 0 else n) + 1)
      | Some (Text ones) => Text (S ones)
      | None =>
          if bool_decide (actionId ∈ inherited_functions) then Text 1
          else Number (0 + 1)
      end in
    <[actionId := next]> counts.

(** The returned object, as the map of its own properties. *)
Definition getActivityCountsLast30Days (now offsetNow offsetThen : Z) (acts : list Obj)
  : gmap string Count :=
  let recentActivities := List.filter (in_last_30_days now offsetNow offsetThen) acts in
  foldl count_one ∅ recentActivities.

(** *** calculateAverageWorkHours *)

Definition is_space (c : ascii) : bool :=
  let n := N_of_ascii c in
  (n =? 32)%N || ((9 <=? n)%N && (n <=? 13)%N).

Fixpoint skip_spaces (s : string) : string :=
  match s with
  | String c s' => if is_space c then skip_spaces s' else s
  | EmptyString => s
  end.

Definition digit_in (radix : Z) (c : ascii) : option Z :=
  let n := Z.of_N (N_of_ascii c) in
  let v := if (48 <=? n)%Z && (n <=? 57)%Z then Some (n - 48)
           else if (97 <=? n)%Z && (n <=? 122)%Z then Some (n - 87)
           else if (65 <=? n)%Z && (n <=? 90)%Z then Some (n - 55)
           else None in
  d ← v; if (d <? radix)%Z then Some d else None.

(** The longest prefix of digits, as a number; [None] when it is empty. *)
Fixpoint digits_prefix (radix : Z) (s : string) (acc : option Z) : option Z :=
  match s with
  | String c s' =>
      match digit_in radix c with
      | Some d => digits_prefix radix s' (Some (radix * default 0 acc + d))
      | None => acc
      end
  | EmptyString => acc
  end.

(** [parseInt(s)], [None] for NaN. *)
Definition parseInt (s : string) : option Z :=
  let s := skip_spaces s in
  let '(negative, s) :=
    match s with
    | String "-" s' => (true, s')
    | String "+" s' => (false, s')
    | _ => (false, s)
    end in
  let '(radix, s) :=
    match s with
    | String "0" (String "x" s') | String "0" (String "X" s') => (16, s')
    | _ => (10, s)
    end in
  (λ n, if negative : bool then - n else n) <$> digits_prefix radix s None.

(** [s.split(':')]. *)
Fixpoint split_colon (s : string) : list string :=
  match s with
  | EmptyString => [""]
  | String c s' =>
      if Ascii.eqb c ":" then "" :: split_colon s'
      else match split_colon s' with
           | part :: parts => String c part :: parts
           | [] => [String c ""]
           end
  end.

(** Minutes after local midnight of the [Date] that [setHours(h, m, 0)]
    makes of [new Date(0)], [h] and [m] parsed from the two first parts of
    [s]; [None] when either is NaN. A missing part is [undefined], and
    [parseInt(undefined)] is NaN. *)
Definition minutes_of (s : string) : option Z :=
  let parts := split_colon s in
  h ← parts !! 0%nat ≫= parseInt;
  m ← parts !! 1%nat ≫= parseInt;
  Some (h * 60 + m).

(** The [forEach] loop. [total] is [totalHours] in minutes, [None] for
    NaN. [activity.startTime.split] raises a [TypeError] unless
    [startTime] is a string, and so for [endTime]. *)
Fixpoint sum_work_minutes (work : list Obj) (total : option Z) : outcome (option Z) :=
  match work with
  | [] => Returned total
  | activity :: rest =>
      match activity !! "startTime", activity !! "endTime" with
      | Some (VStr startTime), Some (VStr endTime) =>
          let diff :=
            s ← minutes_of startTime;
            e ← minutes_of endTime;
            Some (if (e <? s)%Z then e + 24 * 60 - s else e - s) in
          sum_work_minutes rest (t ← total; d ← diff; Some (t + d))
      | _, _ => Raised
      end
  end.

(** What [calculateAverageWorkHours] returns: the number [0], or the
    string [(totalHours / count).toFixed(1)], kept as its operands with
    [totalHours] in minutes. *)
Inductive average : Type :=
  | Zero
  | ToFixed1 (total_minutes : option Z) (count : nat).

Definition calculateAverageWorkHours (acts : list Obj) : outcome average :=
  let workActivities :=
    List.filter (λ a, prop_is "actionId" "work" a || prop_is "type" "work" a) acts in
  if (length workActivities =? 0)%nat then Returned Zero
  else
    match sum_work_minutes workActivities (Some 0) with
    | Returned total => Returned (ToFixed1 total (length workActivities))
    | Raised => Raised
    end.

(** *** calculateDaysSinceLastOccurrence *)

(** [Number(a.timestamp)], [None] for NaN. Timestamps are numbers; a
    timestamp that is a string or an array is outside the integer model of
    numbers and is taken as NaN. *)
Definition timestamp_number (a : Obj) : option Z :=
  match a !! "timestamp" with
  | Some (VNum n) => Some n
  | Some VNull => Some 0
  | Some (VBool b) => Some (if b then 1 else 0)
  | _ => None
  end.

(** The comparator [(a, b) => b.timestamp - a.timestamp]; a NaN result
    counts as [0], as [sort] takes it. *)
Definition newest_first (a b : Obj) : Z :=
  match timestamp_number b, timestamp_number a with
  | Some tb, Some ta => tb - ta
  | _, _ => 0
  end.

(** [arr.sort(newest_first)]: a stable sort, here by insertion. With
    comparable timestamps every stable sort gives this order. *)
Fixpoint insert_newest (a : Obj) (l : list Obj) : list Obj :=
  match l with
  | [] => [a]
  | b :: l' =>
      if (newest_first a b <=? 0)%Z then a :: b :: l'
      else b :: insert_newest a l'
  end.

Definition sort_newest_first (l : list Obj) : list Obj := foldr insert_newest [] l.

(** [today] holds the local calendar fields of [new Date()], and [offset]
    the milliseconds by which local time is ahead of UTC, so that
    [today.setHours(0, 0, 0, 0)] is the instant
    [days_from_civil today * DAY_MS - offset]. The result is [None] for NaN. *)
Definition calculateDaysSinceLastOccurrence (today : Z * Z * Z) (offset : Z)
    (acts : list Obj) (actionId : string) : option Z :=
  let relevantActivities :=
    List.filter (λ a, truthy (a !! "date"))
      (List.filter (prop_is "actionId" actionId) acts) in
  if (length relevantActivities =? 0)%nat then Some 0
  else
    match sort_newest_first relevantActivities with
    | latest :: _ =>
        lastDate ← latest !! "date" ≫= date_time;
        let '(y, m, d) := today in
        let todayMidnight := days_from_civil y m d * DAY_MS - offset in
        let diffTime := todayMidnight - lastDate in
        Some (diffTime / DAY_MS)
    | [] => None
    end.

Definition calculateDaysSinceUnhealthyFood (today : Z * Z * Z) (offset : Z)
    (acts : list Obj) : option Z :=
  calculateDaysSinceLastOccurrence today offset acts "diet-unhealthy".

Definition calculateExerciseStreak (today : Z * Z * Z) (acts : list Obj) : Z :=
  calculateActionStreak today acts "exercise".

(** *** getGoodHabitActions, getBadHabitActions *)

Definition getGoodHabitActions (st : Collections) : list Obj * Collections :=
  let '(catalog, st) := SyncStorage.getActions st in
  (List.filter (prop_is "type" "good") catalog, st).

Definition getBadHabitActions (st : Collections) : list Obj * Collections :=
  let '(catalog, st) := SyncStorage.getActions st in
  (List.filter (prop_is "type" "bad") catalog, st).

End Analytics.

(** ** The dashboard of the synchronous interface *)

Module Dashboard.

(** The activities that [renderTodayActivities] lists, in the order it lists
    them: those of [Storage.getActivitiesByDate(today)], newest first.
    [today] holds the local calendar fields of [new Date()]. *)
Definition renderTodayActivities (today : Z * Z * Z) (st : Collections) : list Obj :=
  let todayStr := Analytics.local_date_string today in
  let todayActivities := SyncStorage.getActivitiesByDate todayStr st in
  if (length todayActivities =? 0)%nat then []
  else Analytics.sort_newest_first todayActivities.

End Dashboard.

(** * Vocabulary of the properties *)

(** What [Storage.getActivities()] and [Storage.getActions()] return in the
    asynchronous backend. *)
Definition async_activities (st : AsyncStorage.Cloud) : list Obj :=
  match AsyncStorage.getActivities st with
  | (Returned l, _) => l
  | _ => []
  end.

Definition async_actions (st : AsyncStorage.Cloud) : list Obj :=
  match AsyncStorage.getActions st with
  | (Returned l, _) => l
  | _ => []
  end.

(** An activity refers to the action [id] by [actionId] or, for a legacy
    record, by [type]. *)
Definition references (id : string) (a : Obj) : Prop :=
  a !! "actionId" = Some (VStr id) ∨ a !! "type" = Some (VStr id).

#[global] Instance references_dec id a : Decision (references id a).
Proof. unfold references. apply _. Defined.

(** The records of [l] whose [id] is not the string [id]. *)
Definition without_id (id : string) (l : list Obj) : list Obj :=
  filter (λ a : Obj, a !! "id" ≠ Some (VStr id)) l.

(** A store of the asynchronous backend, no user signed in, whose mirror
    holds one action and one activity that refers to it. *)
Definition cloud_one_habit : AsyncStorage.Cloud :=
  {| AsyncStorage.user := false;
     AsyncStorage.doc := None;
     AsyncStorage.cache :=
       {| activities := Some [ <["id" := VStr "1717570000000"]>
                                (<["actionId" := VStr "1717500000000"]>
                                (<["date" := VStr "2024-06-05"]>
                                (<["timestamp" := VNum 1717570000000]> ∅))) ];
          actions := Some [ <["id" := VStr "1717500000000"]>
                             (<["name" := VStr "Run"]> (<["type" := VStr "good"]> ∅)) ] |} |}.

(** An incoming record whose [id], if it has one, is a string, a number, a
    boolean or [null]. *)
Definition scalar_id (a : Obj) : Prop :=
  match a !! "id" with Some (VArr _) => False | _ => True end.

#[global] Instance scalar_id_dec a : Decision (scalar_id a).
Proof. unfold scalar_id. destruct (a !! "id") as [[]|]; apply _. Defined.

(** The incoming records whose [id] is not among those of [existing]. *)
Definition fresh_records (existing incoming : list Obj) : list Obj :=
  filter (λ a : Obj, a !! "id" ∉ ids existing) incoming.

(** A backup that holds the one action and the one activity of
    [cloud_one_habit]. *)
Definition backup_one_habit : Collections := AsyncStorage.cache cloud_one_habit.

(** The operations of the synchronous store, as the interface layer issues
    them. *)
Inductive Op : Type :=
  | AddActivity (t_id t_ts : Z) (draft : Obj)
  | DeleteActivity (id : string)
  | UpdateActivity (id : string) (patch : Obj)
  | ClearAllData
  | GetActions
  | AddAction (now : Z) (draft : Obj)
  | UpdateAction (id : string) (patch : Obj)
  | DeleteAction (id : string)
  | ImportData (data : option Collections) (replace : bool)
  | MigrateData.

Definition exec (op : Op) (st : Collections) : Collections :=
  match op with
  | AddActivity t_id t_ts draft => (SyncStorage.addActivity t_id t_ts draft st).2
  | DeleteActivity id => SyncStorage.deleteActivity id st
  | UpdateActivity id patch => (SyncStorage.updateActivity id patch st).2
  | ClearAllData => SyncStorage.clearAllData st
  | GetActions => (SyncStorage.getActions st).2
  | AddAction now draft => (SyncStorage.addAction now draft st).2
  | UpdateAction id patch => (SyncStorage.updateAction id patch st).2
  | DeleteAction id => (SyncStorage.deleteAction id st).2
  | ImportData data replace => (SyncStorage.importData data replace st).2
  | MigrateData => SyncStorage.migrateData st
  end.

(** Both stored collections have pairwise distinct ids. *)
Definition unique_ids (st : Collections) : Prop :=
  NoDup (ids (default [] (activities st))) ∧ NoDup (ids (default [] (actions st))).

(** The id that [addAction] stores: the draft's own when it is truthy, else
    one made from the clock. *)
Definition action_id (now : Z) (draft : Obj) : option JVal :=
  if truthy (draft !! "id") then draft !! "id"
  else Some (VStr ("action-" +:+ pretty now)).

(** What an operation needs for the ids to stay distinct: the id it
    introduces is not in use, a catalog patch does not rename the record, an
    imported payload has distinct ids, none of them an array. *)
Definition keeps_ids_apart (op : Op) (st : Collections) : Prop :=
  match op with
  | AddActivity t_id _ _ =>
      Some (VStr (pretty t_id)) ∉ ids (SyncStorage.getActivities st)
  | AddAction now draft =>
      action_id now draft ∉ ids (SyncStorage.getActions st).1
  | UpdateAction id patch =>
      patch !! "id" = None ∨ patch !! "id" = Some (VStr id)
  | ImportData (Some {| activities := Some inActivities; actions := Some inActions |}) _ =>
      (NoDup (ids inActivities) ∧ Forall scalar_id inActivities)
      ∧ (NoDup (ids inActions) ∧ Forall scalar_id inActions)
  | _ => True
  end.

(** The day number of an activity whose [date] is a date-only string naming
    a day that exists. *)
Definition act_day (a : Obj) : option Z :=
  match a !! "date" with
  | Some (VStr s) => Analytics.parse_date s
  | _ => None
  end.

(** Every activity either has no (truthy) [date] or has a well-formed one. *)
Definition valid_dates (acts : list Obj) : Prop :=
  Forall (λ a, truthy (a !! "date") = true → is_Some (act_day a)) acts.

(** The activity's day lies between the days [first] and [last]. *)
Definition day_between (first last : Z) (a : Obj) : Prop :=
  match act_day a with
  | Some d => (first ≤ d ≤ last)%Z
  | None => False
  end.

#[global] Instance day_between_dec first last a : Decision (day_between first last a).
Proof. unfold day_between. destruct (act_day a); apply _. Defined.

(** The number of records of [l] that are counted under the name [k]. *)
Definition tally (k : string) (l : list Obj) : nat :=
  length (filter (λ a, Analytics.count_key a = k) l).

(** What the [counts] object holds under the name [k] once [n] activities
    have been counted under it: nothing when there is none and nothing ever
    under [__proto__], a text under the name of an inherited function, and
    the number [n] under any other name. *)
Definition counted (k : string) (n : nat) : option Analytics.Count :=
  if (n =? 0)%nat || String.eqb k "__proto__" then None
  else if bool_decide (k ∈ Analytics.inherited_functions) then Some (Analytics.Text n)
  else Some (Analytics.Number (Z.of_nat n)).

(** The first day of the window of [getActivityCountsLast30Days]: the
    first midnight UTC at or after [thirtyDaysAgo]. *)
Definition first_day (now offsetNow offsetThen : Z) : Z :=
  (Analytics.ceil_div (now + offsetNow - offsetThen) Analytics.DAY_MS - 30)%Z.

(** An activity of the action ["exercise"] dated 2024-05-06. *)
Definition exercise_on_may_6 : Obj :=
  <["id" := VStr "1714990000000"]> (<["actionId" := VStr "exercise"]>
    (<["date" := VStr "2024-05-06"]> (<["timestamp" := VNum 1714990000000]> ∅))).

(** A civil date (year, month, day) that exists. *)
Definition valid_civil (c : Z * Z * Z) : Prop :=
  let '(y, m, d) := c in
  (1 ≤ m ≤ 12)%Z ∧ (1 ≤ d ≤ Analytics.days_in_month y m)%Z.

Definition civil_day (c : Z * Z * Z) : Z :=
  let '(y, m, d) := c in Analytics.days_from_civil y m d.

(** The eight digits of a date read as one number: dates compare as these
    numbers do. *)
Definition civil_key (c : Z * Z * Z) : Z :=
  let '(y, m, d) := c in y * 10000 + m * 100 + d.

(** Days before 1 March of year [y], up to a constant. *)
Definition year_start (y : Z) : Z := (365 * y + y / 4 - y / 100 + y / 400)%Z.

(** Days from 1 March to the first of month [m]. *)
Definition month_offset (m : Z) : Z := ((153 * ((m + 9) mod 12) + 2) / 5)%Z.

(** The character of a decimal digit, and numbers written with two and with
    four digits. *)
Definition digit_char (k : Z) : ascii := ascii_of_N (Z.to_N (48 + k)).

Definition two_digits (n : Z) : string :=
  String (digit_char (n / 10)) (String (digit_char (n mod 10)) "").

Definition four_digits (y : Z) : string :=
  String (digit_char (y / 1000)) (String (digit_char (y / 100 mod 10))
    (String (digit_char (y / 10 mod 10)) (String (digit_char (y mod 10)) ""))).

(** The day a value names when it is a well-formed date-only string. *)
Definition day_of_val (v : JVal) : option Z :=
  match v with
  | VStr s => Analytics.parse_date s
  | _ => None
  end.

Definition day_or0 (v : JVal) : Z := default 0%Z (day_of_val v).

Definition good_date (v : JVal) : Prop := is_Some (day_of_val v).

(** The days on which the action was performed: the days of the activities
    that [calculateActionStreak] matches with [actionId]. *)
Definition matching_days (acts : list Obj) (actionId : string) : list Z :=
  omap act_day (List.filter (Analytics.streak_match actionId) acts).

(** [n] is the length of the run of consecutive days of [D] that ends at
    the day [latest]: the days [latest], [latest - 1], ..., [latest - n + 1]
    are in [D] and the day [latest - n] is not. *)
Definition run_ending (latest : Z) (D : list Z) (n : Z) : Prop :=
  (1 ≤ n)%Z ∧ (∀ i, (0 ≤ i < n)%Z → (latest - i)%Z ∈ D) ∧ (latest - n)%Z ∉ D.

Definition days_of (l : list JVal) : list Z := day_or0 <$> l.

(** The latest of the days [D], when there is one. *)
Definition latest_day (D : list Z) : option Z :=
  foldr (λ d acc, Some (from_option (Z.max d) d acc)) None D.

(** An activity of the action [actionId] on the day [date]. *)
Definition activity_on (id actionId date : string) : Obj :=
  <["id" := VStr id]> (<["actionId" := VStr actionId]> (<["date" := VStr date]> ∅)).

(** The store of the asynchronous backend once the user has signed out. *)
Definition sign_out (st : AsyncStorage.Cloud) : AsyncStorage.Cloud :=
  {| AsyncStorage.user := false;
     AsyncStorage.doc := AsyncStorage.doc st;
     AsyncStorage.cache := AsyncStorage.cache st |}.

(** The activity is one of the action ["work"], by [actionId] or by a legacy
    [type], as [calculateAverageWorkHours] selects them. *)
Definition work_activities (acts : list Obj) : list Obj :=
  filter (references "work") acts.

(** The activity has a string as [startTime] and a string as [endTime]. *)
Definition has_times (a : Obj) : Prop :=
  match a !! "startTime", a !! "endTime" with
  | Some (VStr _), Some (VStr _) => True
  | _, _ => False
  end.

#[global] Instance has_times_dec a : Decision (has_times a).
Proof.
  unfold has_times.
  destruct (a !! "startTime") as [[]|], (a !! "endTime") as [[]|]; apply _.
Defined.

(** The time of day [t] minutes after midnight, written [HH:MM]. *)
Definition hhmm (t : Z) : string :=
  two_digits (t / 60) +:+ ":" +:+ two_digits (t mod 60).

(** Both times of the activity are written [HH:MM], from 00:00 to 23:59. *)
Definition hhmm_times (a : Obj) : Prop :=
  ∃ s e, (0 ≤ s < 1440)%Z ∧ (0 ≤ e < 1440)%Z
         ∧ a !! "startTime" = Some (VStr (hhmm s))
         ∧ a !! "endTime" = Some (VStr (hhmm e)).

(** Minutes after midnight of a time property. *)
Definition minute_of_day (v : option JVal) : Z :=
  match v with
  | Some (VStr s) => default 0%Z (Analytics.minutes_of s)
  | _ => 0%Z
  end.

(** Minutes from the start to the end of the activity, the end falling on
    the next day when it is earlier than the start. *)
Definition shift_minutes (a : Obj) : Z :=
  ((minute_of_day (a !! "endTime") - minute_of_day (a !! "startTime")) mod 1440)%Z.

Definition total_minutes (l : list Obj) : Z :=
  foldr (λ a acc, shift_minutes a + acc)%Z 0%Z l.

(** The timestamp of a record that has a number as [timestamp]. *)
Definition timestamp_of (a : Obj) : Z := default 0%Z (Analytics.timestamp_number a).

Definition numeric_timestamp (a : Obj) : Prop :=
  ∃ n, a !! "timestamp" = Some (VNum n).

(** The activities of the action [actionId] that have a date, as
    [calculateDaysSinceLastOccurrence] selects them. *)
Definition occurrences (acts : list Obj) (actionId : string) : list Obj :=
  List.filter (λ a, truthy (a !! "date"))
    (List.filter (prop_is "actionId" actionId) acts).

(** * Properties of the persistence store *)

(** ** Basic facts *)

Section StoreFacts.

Lemma prop_is_true k s o : prop_is k s o = true ↔ o !! k = Some (VStr s).
Proof. unfold prop_is. apply bool_decide_eq_true. Qed.

Lemma prop_is_false k s o : prop_is k s o = false ↔ o !! k ≠ Some (VStr s).
Proof. unfold prop_is. apply bool_decide_eq_false. Qed.

Lemma filter_not_id id (l : list Obj) :
  List.filter (λ a, negb (prop_is "id" id a)) l = without_id id l.
Proof.
  unfold without_id. induction l as [|a l IH]; [done|].
  cbn [List.filter]. rewrite filter_cons.
  destruct (prop_is "id" id a) eqn:E; cbn [negb].
  - apply prop_is_true in E. rewrite decide_False by (intros H; by apply H).
    exact IH.
  - apply prop_is_false in E. rewrite decide_True by done. by rewrite IH.
Qed.

Lemma existsb_references id (l : list Obj) :
  existsb (λ a, prop_is "actionId" id a || prop_is "type" id a) l = true
  ↔ Exists (references id) l.
Proof.
  rewrite existsb_exists, Exists_exists. split.
  - intros (a & Hin & Ha). exists a. split; [by apply list_elem_of_In|].
    apply orb_true_iff in Ha as [Ha|Ha]; apply prop_is_true in Ha;
      [by left|by right].
  - intros (a & Hin & Ha). exists a. split; [by apply list_elem_of_In|].
    apply orb_true_iff. destruct Ha as [Ha|Ha]; apply prop_is_true in Ha; auto.
Qed.

Lemma async_persist_actions l st :
  async_actions (AsyncStorage.persist {| activities := None; actions := Some l |} st).2 = l
  ∧ async_activities (AsyncStorage.persist {| activities := None; actions := Some l |} st).2
    = async_activities st.
Proof.
  destruct st as [u d c]. unfold async_actions, async_activities.
  cbn. destruct u; cbn; [|done]. by destruct d.
Qed.

Lemma async_persist_activities l st :
  async_activities (AsyncStorage.persist {| activities := Some l; actions := None |} st).2 = l
  ∧ async_actions (AsyncStorage.persist {| activities := Some l; actions := None |} st).2
    = async_actions st.
Proof.
  destruct st as [u d c]. unfold async_actions, async_activities.
  cbn. destruct u; cbn; [|done]. by destruct d.
Qed.

Lemma async_persist_both l1 l2 st :
  async_activities (AsyncStorage.persist {| activities := Some l1; actions := Some l2 |} st).2 = l1
  ∧ async_actions (AsyncStorage.persist {| activities := Some l1; actions := Some l2 |} st).2 = l2.
Proof.
  destruct st as [u d c]. unfold async_actions, async_activities.
  cbn. by destruct u.
Qed.

End StoreFacts.

(** ** deleteAction *)

(** C1, as stated, fails in the asynchronous backend: an action that an
    activity refers to is removed all the same. *)
Lemma deleteAction_async_removes_referenced :
  Exists (references "1717500000000") (async_activities cloud_one_habit)
  ∧ ids (async_actions cloud_one_habit) = [Some (VStr "1717500000000")]
  ∧ async_actions (AsyncStorage.deleteAction "1717500000000" cloud_one_habit).2 = [].
Proof.
  split; [|split].
  - apply Exists_cons_hd. left. vm_compute. reflexivity.
  - vm_compute. reflexivity.
  - vm_compute. reflexivity.
Qed.

(** C1 (amended): in the synchronous backend [deleteAction id] returns
    [false] and leaves the store as it is when some activity refers to [id]
    by [actionId] or by [type]; otherwise it returns [true], leaves the
    activities as they are and stores the catalog without the actions whose
    id is [id]. In the asynchronous backend there is no such check:
    [deleteAction id] returns nothing, always stores the catalog without the
    actions whose id is [id], and leaves the activities as they are. *)
Theorem deleteAction_guard (id : string) :
  (∀ st : Collections,
     let r := SyncStorage.deleteAction id st in
     if decide (Exists (references id) (SyncStorage.getActivities st))
     then r = (false, st)
     else r.1 = true
          ∧ activities r.2 = activities st
          ∧ actions r.2 = Some (without_id id (SyncStorage.getActions st).1))
  ∧ (∀ st : AsyncStorage.Cloud,
       (AsyncStorage.deleteAction id st).1 = Returned ()
       ∧ async_activities (AsyncStorage.deleteAction id st).2 = async_activities st
       ∧ async_actions (AsyncStorage.deleteAction id st).2
         = without_id id (async_actions st)).
Proof.
  split.
  - intros st r. subst r. unfold SyncStorage.deleteAction.
    case_decide as Href.
    + apply existsb_references in Href. by rewrite Href.
    + destruct (existsb _ _) eqn:E.
      { exfalso. apply Href. by apply existsb_references. }
      unfold SyncStorage.getActions.
      destruct (actions st) as [l|] eqn:Hl; cbn [fst snd SyncStorage.saveActions activities actions];
        rewrite filter_not_id; done.
  - intros st. unfold AsyncStorage.deleteAction, AsyncStorage.bind.
    cbn [AsyncStorage.getActions].
    rewrite filter_not_id.
    set (acts := if AsyncStorage.user st then _ else _).
    assert (async_actions st = acts) as -> by done.
    destruct (async_persist_actions (without_id id acts) st) as [H1 H2].
    split; [done|]. split; assumption.
Qed.

(** ** updateActivity *)

(** In the synchronous backend the stored record keeps the [id] and the
    [timestamp] of the original whatever the patch holds, and on every other
    key it is the patch over the original. *)
Lemma updateActivity_sync_pins (id : string) (patch : Obj) (st : Collections)
    (i : nat) (orig : Obj) :
  findIndex (prop_is "id" id) (SyncStorage.getActivities st) = Some (i, orig) →
  ∃ merged,
    SyncStorage.updateActivity id patch st
      = (Some merged,
         SyncStorage.saveActivities (<[i := merged]> (SyncStorage.getActivities st)) st)
    ∧ SyncStorage.getActivities (SyncStorage.updateActivity id patch st).2 !! i = Some merged
    ∧ merged !! "id" = orig !! "id"
    ∧ merged !! "timestamp" = orig !! "timestamp"
    ∧ ∀ k, k ≠ "id" → k ≠ "timestamp" →
        merged !! k = match patch !! k with Some v => Some v | None => orig !! k end.
Proof.
  intros Hfind. unfold SyncStorage.updateActivity. rewrite Hfind.
  eexists. split; [reflexivity|]. cbn [snd fst].
  apply list_find_Some in Hfind as (Hi & _ & _).
  split; [|split; [|split]].
  - unfold SyncStorage.getActivities at 1. cbn.
    apply list_lookup_insert_eq. by eapply lookup_lt_Some.
  - unfold pin at 1. destruct (orig !! "timestamp") eqn:Ets.
    + rewrite lookup_insert_ne by done. unfold pin. destruct (orig !! "id") eqn:Eid.
      * by rewrite lookup_insert_eq.
      * by rewrite lookup_delete_eq.
    + rewrite lookup_delete_ne by done. unfold pin. destruct (orig !! "id") eqn:Eid.
      * by rewrite lookup_insert_eq.
      * by rewrite lookup_delete_eq.
  - unfold pin at 1. destruct (orig !! "timestamp") eqn:Ets.
    + by rewrite lookup_insert_eq.
    + by rewrite lookup_delete_eq.
  - intros k Hid Hts.
    assert (∀ o : Obj, pin "timestamp" orig (pin "id" orig o) !! k = o !! k) as ->.
    { intros o. unfold pin.
      destruct (orig !! "timestamp"), (orig !! "id");
        repeat first [ rewrite lookup_insert_ne by congruence
                     | rewrite lookup_delete_ne by congruence ]; done. }
    unfold spread. rewrite lookup_union.
    destruct (patch !! k), (orig !! k); done.
Qed.

(** C2 at its failing input: in the asynchronous backend a patch that
    carries a [timestamp] replaces the stored one; only the [id] is kept. *)
Theorem updateActivity_async_overwrites_timestamp :
  let patch : Obj := <["timestamp" := VNum 5]> ∅ in
  let st' := (AsyncStorage.updateActivity "1717570000000" patch cloud_one_habit).2 in
  (λ a : Obj, a !! "timestamp") <$> async_activities cloud_one_habit
    = [Some (VNum 1717570000000)]
  ∧ ids (async_activities cloud_one_habit) = [Some (VStr "1717570000000")]
  ∧ (λ a : Obj, a !! "timestamp") <$> async_activities st' = [Some (VNum 5)]
  ∧ ids (async_activities st') = [Some (VStr "1717570000000")].
Proof. cbv zeta. repeat split; vm_compute; reflexivity. Qed.

(** ** importData *)

Section ImportFacts.

Lemma strict_eq_scalar x v :
  match v with Some (VArr _) => False | _ => True end →
  strict_eq x v = true ↔ x = v.
Proof.
  intros Hv. unfold strict_eq.
  destruct x as [[]|], v as [[]|]; try done;
    rewrite bool_decide_eq_true; done.
Qed.

Lemma includes_scalar idList v :
  match v with Some (VArr _) => False | _ => True end →
  includes idList v = true ↔ v ∈ idList.
Proof.
  intros Hv. unfold includes. rewrite existsb_exists. split.
  - intros (x & Hin & Hx). apply strict_eq_scalar in Hx; [|done].
    subst. by apply list_elem_of_In.
  - intros Hin. exists v. split; [by apply list_elem_of_In|].
    by apply strict_eq_scalar.
Qed.

Lemma filter_not_included existing (incoming : list Obj) :
  Forall scalar_id incoming →
  List.filter (λ a, negb (includes (ids existing) (a !! "id"))) incoming
  = fresh_records existing incoming.
Proof.
  unfold fresh_records. induction 1 as [|a l Ha _ IH]; [done|].
  cbn [List.filter]. rewrite filter_cons.
  pose proof (includes_scalar (ids existing) (a !! "id") Ha) as Hinc.
  destruct (includes (ids existing) (a !! "id")) eqn:E; cbn [negb].
  - rewrite decide_False; [exact IH|]. intros Hn. apply Hn. by apply Hinc.
  - rewrite decide_True; [by rewrite IH|]. intros Hin. apply Hinc in Hin. done.
Qed.

Lemma filter_none {A} (P : A → Prop) `{!∀ x, Decision (P x)} (l : list A) :
  (∀ x, x ∈ l → ¬ P x) → filter P l = [].
Proof.
  induction l as [|x l IH]; intros Hl; [done|].
  rewrite filter_cons_False by (apply Hl; left).
  apply IH. intros y Hy. apply Hl. by right.
Qed.

Lemma fresh_records_again existing (incoming : list Obj) :
  fresh_records (existing ++ fresh_records existing incoming) incoming = [].
Proof.
  unfold fresh_records. apply filter_none.
  intros a Ha Hfresh. apply Hfresh. unfold ids. rewrite fmap_app.
  destruct (decide (a !! "id" ∈ (λ o : Obj, o !! "id") <$> existing)) as [Hin|Hout].
  - apply elem_of_app. by left.
  - apply elem_of_app. right. apply list_elem_of_fmap. exists a. split; [done|].
    apply list_elem_of_filter. done.
Qed.

Lemma importData_merge_result (st : Collections) (inActivities inActions : list Obj) :
  Forall scalar_id inActivities →
  Forall scalar_id inActions →
  SyncStorage.importData
    (Some {| activities := Some inActivities; actions := Some inActions |}) false st
  = (true,
     {| activities :=
          Some (SyncStorage.getActivities st
                ++ fresh_records (SyncStorage.getActivities st) inActivities);
        actions :=
          Some ((SyncStorage.getActions st).1
                ++ fresh_records (SyncStorage.getActions st).1 inActions) |}).
Proof.
  intros Hacts Hactions. unfold SyncStorage.importData.
  destruct (SyncStorage.getActions st) as [l st1] eqn:Hget.
  cbn [fst]. rewrite !filter_not_included by done.
  unfold SyncStorage.saveActions, SyncStorage.saveActivities. cbn.
  replace (SyncStorage.getActivities st1) with (SyncStorage.getActivities st); [done|].
  unfold SyncStorage.getActions in Hget.
  destruct (actions st); inversion Hget; done.
Qed.

End ImportFacts.

(** C3, as stated, fails in the asynchronous backend: a merge import appends
    an incoming activity whose id is already stored, and a second import
    appends it once more. *)
Lemma importData_async_merge_duplicates :
  let once := (AsyncStorage.importData (Some backup_one_habit) true cloud_one_habit).2 in
  let twice := (AsyncStorage.importData (Some backup_one_habit) true once).2 in
  ids (async_activities cloud_one_habit) = [Some (VStr "1717570000000")]
  ∧ ids (async_activities once)
    = [Some (VStr "1717570000000"); Some (VStr "1717570000000")]
  ∧ length (async_activities once) = 2%nat
  ∧ length (async_activities twice) = 3%nat.
Proof. cbv zeta. repeat split; vm_compute; reflexivity. Qed.

(** C3 (amended): in the synchronous backend, for every store and every
    payload that holds both sequences and whose record ids are not arrays, a
    merge import succeeds and appends, to each collection, exactly the
    incoming records whose [id] is not the [id] of a record already there
    (the catalog read being the seeded one when none is stored); importing
    the same payload once more changes nothing. *)
Theorem importData_merge_sync (st : Collections) (inActivities inActions : list Obj) :
  Forall scalar_id inActivities →
  Forall scalar_id inActions →
  let payload := Some {| activities := Some inActivities; actions := Some inActions |} in
  let existingActivities := SyncStorage.getActivities st in
  let existingActions := (SyncStorage.getActions st).1 in
  let r := SyncStorage.importData payload false st in
  r.1 = true
  ∧ activities r.2
    = Some (existingActivities ++ fresh_records existingActivities inActivities)
  ∧ actions r.2 = Some (existingActions ++ fresh_records existingActions inActions)
  ∧ SyncStorage.importData payload false r.2 = (true, r.2).
Proof.
  intros Hacts Hactions payload eActs eActions r.
  subst r payload eActs eActions.
  rewrite importData_merge_result by done. cbn [fst snd activities actions].
  repeat split.
  unfold SyncStorage.importData, SyncStorage.getActions,
    SyncStorage.getActivities, SyncStorage.saveActions, SyncStorage.saveActivities.
  cbn [activities actions default from_option id fst snd].
  rewrite !filter_not_included by done.
  rewrite !fresh_records_again, !app_nil_r. reflexivity.
Qed.

Lemma importData_merge_sync_witness :
  let st := AsyncStorage.cache cloud_one_habit in
  let incoming : list Obj :=
    [ <["id" := VStr "1717570000000"]> (<["notes" := VStr "other"]> ∅);
      <["id" := VStr "1717580000000"]> ∅ ] in
  Forall scalar_id incoming
  ∧ Forall scalar_id SyncStorage.defaultActions
  ∧ ids <$> activities
      (SyncStorage.importData
         (Some {| activities := Some incoming; actions := Some SyncStorage.defaultActions |})
         false st).2
    = Some [Some (VStr "1717570000000"); Some (VStr "1717580000000")].
Proof.
  intros st incoming.
  assert (Forall scalar_id incoming) as H1 by (repeat constructor).
  assert (Forall scalar_id SyncStorage.defaultActions) as H2 by (repeat constructor).
  split; [exact H1|]. split; [exact H2|].
  destruct (importData_merge_sync st incoming SyncStorage.defaultActions H1 H2)
    as (_ & Hacts & _).
  rewrite Hacts. vm_compute. reflexivity.
Defined.

(** C4, as stated, fails in the asynchronous backend: a payload without an
    [actions] sequence is imported; in replace mode its activities take the
    place of the stored ones and the catalog is emptied. *)
Lemma importData_async_partial :
  let payload :=
    {| activities := Some [ <["id" := VStr "7"]> ∅ ]; actions := None |} in
  let r := AsyncStorage.importData (Some payload) false cloud_one_habit in
  r.1 = Returned true
  ∧ ids (async_activities cloud_one_habit) = [Some (VStr "1717570000000")]
  ∧ ids (async_activities r.2) = [Some (VStr "7")]
  ∧ ids (async_actions cloud_one_habit) = [Some (VStr "1717500000000")]
  ∧ async_actions r.2 = [].
Proof. cbv zeta. repeat split; vm_compute; reflexivity. Qed.

(** C4 (amended): in the synchronous backend [importData] returns [false]
    and leaves the store as it is when the payload is missing or lacks its
    [activities] or its [actions] sequence. In the asynchronous backend a
    payload that is missing or lacks [activities] makes [importData] raise,
    with the store as it was; a payload that has [activities] but lacks
    [actions] is imported and [true] is returned: the incoming activities are
    stored, after the current ones in merge mode and alone in replace mode,
    and the catalog is stored as read in merge mode and emptied in replace
    mode. *)
Theorem importData_missing_sequences (replace : bool) (x : option (list Obj)) :
  (∀ st : Collections,
     SyncStorage.importData None replace st = (false, st)
     ∧ SyncStorage.importData (Some {| activities := None; actions := x |}) replace st
       = (false, st)
     ∧ SyncStorage.importData (Some {| activities := x; actions := None |}) replace st
       = (false, st))
  ∧ (∀ (st : AsyncStorage.Cloud) (merge : bool),
       AsyncStorage.importData None merge st = (Raised, st)
       ∧ AsyncStorage.importData (Some {| activities := None; actions := x |}) merge st
         = (Raised, st))
  ∧ (∀ (st : AsyncStorage.Cloud) (merge : bool) (incoming : list Obj),
       let r := AsyncStorage.importData
                  (Some {| activities := Some incoming; actions := None |}) merge st in
       r.1 = Returned true
       ∧ async_activities r.2
         = (if merge then async_activities st else []) ++ incoming
       ∧ async_actions r.2 = (if merge then async_actions st else [])).
Proof.
  split; [|split].
  - intros st. repeat split; try done. by destruct x.
  - intros st merge. split; by destruct merge.
  - intros st merge incoming r. subst r.
    unfold AsyncStorage.importData, AsyncStorage.bind.
    destruct merge; cbn [AsyncStorage.getActivities AsyncStorage.getActions
                         AsyncStorage.ret default fst snd].
    + match goal with |- context [AsyncStorage.persist ?d st] =>
        match d with {| activities := Some ?l1; actions := Some ?l2 |} =>
          destruct (async_persist_both l1 l2 st) as [H1 H2] end end.
      destruct (AsyncStorage.persist _ st) as [[[]|] st'] eqn:Hp; [|done].
      cbn [fst snd] in *. done.
    + match goal with |- context [AsyncStorage.persist ?d st] =>
        match d with {| activities := Some ?l1; actions := Some ?l2 |} =>
          destruct (async_persist_both l1 l2 st) as [H1 H2] end end.
      destruct (AsyncStorage.persist _ st) as [[[]|] st'] eqn:Hp; [|done].
      cbn [fst snd] in *. done.
Qed.

(** ** getActions *)

(** C6, as stated, fails in the asynchronous backend: on an empty store,
    signed in or not, [getActions] returns the empty catalog and stores
    nothing. *)
Lemma getActions_async_no_seed :
  AsyncStorage.getActions
    {| AsyncStorage.user := false; AsyncStorage.doc := None;
       AsyncStorage.cache := noCollections |}
  = (Returned [],
     {| AsyncStorage.user := false; AsyncStorage.doc := None;
        AsyncStorage.cache := noCollections |})
  ∧ AsyncStorage.getActions
      {| AsyncStorage.user := true; AsyncStorage.doc := None;
         AsyncStorage.cache := noCollections |}
    = (Returned [],
       {| AsyncStorage.user := true; AsyncStorage.doc := None;
          AsyncStorage.cache := noCollections |}).
Proof. split; reflexivity. Qed.

(** C6 (amended): in the synchronous backend [getActions] on a store with
    no catalog entry stores and returns the four default actions, Exercise
    (good), Healthy Food (good), Unhealthy Food (bad) and Work Time
    (neutral), and on a store with a catalog entry, as every later call
    finds it, returns that catalog and leaves the store as it is. In the
    asynchronous backend [getActions] never writes and returns the empty
    catalog on an empty store. *)
Theorem getActions_seeds_defaults (acts : option (list Obj)) :
  (let r := SyncStorage.getActions {| activities := acts; actions := None |} in
   r.1 = SyncStorage.defaultActions
   ∧ r.2 = {| activities := acts; actions := Some SyncStorage.defaultActions |}
   ∧ SyncStorage.getActions r.2 = (SyncStorage.defaultActions, r.2))
  ∧ (λ a : Obj, (a !! "name", a !! "type")) <$> SyncStorage.defaultActions
    = [ (Some (VStr "Exercise"), Some (VStr "good"));
        (Some (VStr "Healthy Food"), Some (VStr "good"));
        (Some (VStr "Unhealthy Food"), Some (VStr "bad"));
        (Some (VStr "Work Time"), Some (VStr "neutral")) ]
  ∧ (∀ catalog : list Obj,
       let st := {| activities := acts; actions := Some catalog |} in
       SyncStorage.getActions st = (catalog, st))
  ∧ (∀ st : AsyncStorage.Cloud, (AsyncStorage.getActions st).2 = st)
  ∧ (∀ u : bool,
       (AsyncStorage.getActions
          {| AsyncStorage.user := u; AsyncStorage.doc := None;
             AsyncStorage.cache := noCollections |}).1 = Returned []).
Proof.
  split; [done|]. split; [by vm_compute|]. split; [done|]. split; [done|].
  by intros [].
Qed.

(** ** clearAllData *)

(** C7, as stated, fails in the synchronous backend: the catalog is still
    there after [clearAllData], and on a store without one the next read
    seeds the four defaults. *)
Lemma clearAllData_sync_keeps_actions :
  let st := SyncStorage.clearAllData (AsyncStorage.cache cloud_one_habit) in
  SyncStorage.getActivities st = []
  ∧ ids (SyncStorage.getActions st).1 = [Some (VStr "1717500000000")]
  ∧ (SyncStorage.getActions (SyncStorage.clearAllData noCollections)).1
    = SyncStorage.defaultActions.
Proof. cbv zeta. repeat split; vm_compute; reflexivity. Qed.

(** C7 (amended): after [clearAllData] the activities read back empty in
    both backends; the catalog reads back empty in the asynchronous backend,
    and is left as it was in the synchronous one. *)
Theorem clearAllData_reads_back :
  (∀ st : Collections,
     SyncStorage.getActivities (SyncStorage.clearAllData st) = []
     ∧ actions (SyncStorage.clearAllData st) = actions st)
  ∧ (∀ st : AsyncStorage.Cloud,
       (AsyncStorage.clearAllData st).1 = Returned ()
       ∧ async_activities (AsyncStorage.clearAllData st).2 = []
       ∧ async_actions (AsyncStorage.clearAllData st).2 = []).
Proof.
  split; [done|]. intros st. split; [done|].
  apply (async_persist_both [] [] st).
Qed.

(** ** Distinct identifiers *)

(** C9, as stated, fails: [addAction] keeps the id a draft brings, here one
    that the catalog already holds. *)
Lemma addAction_sync_keeps_draft_id :
  let draft : Obj := <["id" := VStr "exercise"]> (<["name" := VStr "Gym"]> ∅) in
  let st := (SyncStorage.getActions noCollections).2 in
  unique_ids st
  ∧ (SyncStorage.addAction 1717570000000 draft st).1 !! "id" = Some (VStr "exercise")
  ∧ Some (VStr "exercise") ∈ ids (default [] (actions st))
  ∧ ¬ unique_ids (exec (AddAction 1717570000000 draft) st).
Proof.
  cbv zeta. split; [|split; [|split]].
  - split; apply (bool_decide_unpack _); by vm_compute.
  - by vm_compute.
  - apply (bool_decide_unpack _). by vm_compute.
  - intros [_ H]. revert H. apply (bool_decide_eq_false _). by vm_compute.
Qed.

Section DistinctIds.

Lemma ids_app (l k : list Obj) : ids (l ++ k) = ids l ++ ids k.
Proof. unfold ids. apply fmap_app. Qed.

Lemma NoDup_ids_filter (P : Obj → Prop) `{!∀ a, Decision (P a)} (l : list Obj) :
  NoDup (ids l) → NoDup (ids (filter P l)).
Proof.
  intros Hnd. eapply sublist_NoDup; [exact Hnd|].
  unfold ids. apply fmap_sublist, sublist_filter.
Qed.

Lemma NoDup_ids_snoc (l : list Obj) (a : Obj) :
  NoDup (ids l) → a !! "id" ∉ ids l → NoDup (ids (l ++ [a])).
Proof.
  intros Hl Ha. rewrite ids_app. apply NoDup_app. split; [done|]. split.
  - intros x Hx Hin. apply list_elem_of_singleton in Hin. by subst.
  - apply NoDup_singleton.
Qed.

Lemma ids_insert_same (l : list Obj) (i : nat) (o m : Obj) :
  l !! i = Some o → m !! "id" = o !! "id" → ids (<[i := m]> l) = ids l.
Proof.
  intros Hi Hm. unfold ids. rewrite list_fmap_insert.
  apply list_insert_id. by rewrite list_lookup_fmap, Hi, Hm.
Qed.

Lemma pin_id_lookup (orig o : Obj) :
  pin "timestamp" orig (pin "id" orig o) !! "id" = orig !! "id".
Proof.
  unfold pin. destruct (orig !! "timestamp"), (orig !! "id") eqn:E;
    repeat first [ rewrite lookup_insert_ne by done
                 | rewrite lookup_delete_ne by done ];
    by rewrite ?lookup_insert_eq, ?lookup_delete_eq.
Qed.

Lemma migrateOne_id (a : Obj) : SyncStorage.migrateOne a !! "id" = a !! "id".
Proof.
  unfold SyncStorage.migrateOne.
  repeat case_match; try done; by rewrite lookup_insert_ne.
Qed.

Lemma NoDup_default_ids : NoDup (ids SyncStorage.defaultActions).
Proof. apply (bool_decide_unpack _). by vm_compute. Qed.

Lemma NoDup_ids_merge (existing incoming : list Obj) :
  NoDup (ids existing) → NoDup (ids incoming) →
  NoDup (ids (existing ++ fresh_records existing incoming)).
Proof.
  intros He Hi. rewrite ids_app. apply NoDup_app. split; [done|]. split.
  - intros x Hx Hin. unfold ids in Hin. apply list_elem_of_fmap in Hin as (a & -> & Ha).
    apply list_elem_of_filter in Ha as [Hfresh _]. by apply Hfresh.
  - by apply NoDup_ids_filter.
Qed.

End DistinctIds.

(** C9 (amended): in the synchronous backend, from a store whose two
    collections have pairwise distinct ids, every operation leads to such a
    store again, provided that the id [addActivity] makes from the clock is
    not yet an activity id, that the id [addAction] stores (the draft's own
    when it is truthy, else ["action-"] and the clock reading) is not yet an
    action id, that an [updateAction] patch holds no [id] other than the
    record's, and that the two sequences of an imported payload each have
    pairwise distinct ids, none of them an array. *)
Theorem unique_ids_preserved (op : Op) (st : Collections) :
  unique_ids st → keeps_ids_apart op st → unique_ids (exec op st).
Proof.
  intros [Hacts Hactions] Hop.
  destruct op as [t_id t_ts draft | id | id patch | | | now draft | id patch
                 | id | data replace | ]; cbn [exec].
  - (* addActivity *)
    split; [|exact Hactions]. cbn. apply NoDup_ids_snoc; [exact Hacts|].
    rewrite lookup_insert_ne by done. rewrite lookup_insert_eq. exact Hop.
  - (* deleteActivity *)
    split; [|exact Hactions]. cbn. rewrite filter_not_id.
    by apply NoDup_ids_filter.
  - (* updateActivity *)
    unfold SyncStorage.updateActivity.
    destruct (findIndex _ _) as [[i orig]|] eqn:Hfind; [|by split].
    split; [|exact Hactions]. cbn.
    apply list_find_Some in Hfind as (Hi & _ & _).
    erewrite ids_insert_same; [exact Hacts|exact Hi|apply pin_id_lookup].
  - (* clearAllData *)
    split; [apply NoDup_nil_2|exact Hactions].
  - (* getActions *)
    unfold SyncStorage.getActions. destruct (actions st) eqn:E; cbn.
    + split; [exact Hacts|]. by rewrite E.
    + split; [exact Hacts|apply NoDup_default_ids].
  - (* addAction *)
    cbn [keeps_ids_apart] in Hop. unfold SyncStorage.addAction.
    destruct (SyncStorage.getActions st) as [catalog st1] eqn:Hget.
    cbn [fst snd] in *.
    assert (activities st1 = activities st ∧ NoDup (ids catalog)) as [Hsame Hcat].
    { unfold SyncStorage.getActions in Hget. destruct (actions st) eqn:E;
        inversion Hget; subst; cbn; split; try done. apply NoDup_default_ids. }
    split; cbn; [by rewrite Hsame|].
    apply NoDup_ids_snoc; [exact Hcat|].
    unfold action_id in Hop. destruct (truthy (draft !! "id")) eqn:Et.
    + exact Hop.
    + by rewrite lookup_insert_eq.
  - (* updateAction *)
    cbn [keeps_ids_apart] in Hop. unfold SyncStorage.updateAction.
    destruct (SyncStorage.getActions st) as [catalog st1] eqn:Hget.
    assert (activities st1 = activities st ∧ NoDup (ids catalog)
            ∧ NoDup (ids (default [] (actions st1)))) as (Hsame & Hcat & Hst1).
    { unfold SyncStorage.getActions in Hget. destruct (actions st) eqn:E;
        inversion Hget; subst; cbn; rewrite ?E; repeat split; try done;
        apply NoDup_default_ids. }
    destruct (findIndex _ _) as [[i orig]|] eqn:Hfind; cbn [snd].
    + split; cbn; [by rewrite Hsame|].
      apply list_find_Some in Hfind as (Hi & Hid & _).
      apply prop_is_true in Hid.
      erewrite ids_insert_same; [exact Hcat|exact Hi|].
      unfold spread. rewrite lookup_union.
      destruct Hop as [-> | ->]; rewrite Hid; done.
    + split; [by rewrite Hsame|exact Hst1].
  - (* deleteAction *)
    unfold SyncStorage.deleteAction. destruct (existsb _ _); [by split|].
    destruct (SyncStorage.getActions st) as [catalog st1] eqn:Hget.
    assert (activities st1 = activities st ∧ NoDup (ids catalog)) as [Hsame Hcat].
    { unfold SyncStorage.getActions in Hget. destruct (actions st) eqn:E;
        inversion Hget; subst; cbn; split; try done. apply NoDup_default_ids. }
    split; cbn; [by rewrite Hsame|].
    rewrite filter_not_id. by apply NoDup_ids_filter.
  - (* importData *)
    destruct data as [[[inActivities|] [inActions|]]|]; try by split.
    destruct Hop as [[Hd1 Hs1] [Hd2 Hs2]].
    destruct replace.
    + by split.
    + rewrite importData_merge_result by done.
      unfold unique_ids. cbn [snd activities actions default from_option id]. split.
      * by apply NoDup_ids_merge.
      * apply NoDup_ids_merge; [|done].
        unfold SyncStorage.getActions. destruct (actions st) eqn:E; cbn.
        -- exact Hactions.
        -- apply NoDup_default_ids.
  - (* migrateData *)
    unfold SyncStorage.migrateData. destruct (existsb _ _); [|by split].
    split; [|exact Hactions]. cbn.
    replace (ids (SyncStorage.migrateOne <$> SyncStorage.getActivities st))
      with (ids (SyncStorage.getActivities st)); [exact Hacts|].
    unfold ids. rewrite <- list_fmap_compose. apply list_fmap_ext.
    intros _ a _. cbn. by rewrite migrateOne_id.
Qed.

Lemma unique_ids_preserved_witness :
  let st := AsyncStorage.cache cloud_one_habit in
  let op := AddActivity 1717570000001 1717570000002
              (<["actionId" := VStr "1717500000000"]> (<["date" := VStr "2024-06-05"]> ∅)) in
  unique_ids st ∧ keeps_ids_apart op st ∧ unique_ids (exec op st).
Proof.
  intros st op.
  assert (unique_ids st) as H1.
  { split; apply (bool_decide_unpack _); by vm_compute. }
  assert (keeps_ids_apart op st) as H2.
  { apply (bool_decide_unpack _). by vm_compute. }
  exact (conj H1 (conj H2 (unique_ids_preserved op st H1 H2))).
Defined.

(** When every stored activity id is the decimal of a clock reading earlier
    than the current one, the id [addActivity] makes is not in use. *)
Lemma addActivity_id_fresh (t_id : Z) (acts : list Obj) :
  Forall (λ i, ∃ t : Z, i = Some (VStr (pretty t)) ∧ (t < t_id)%Z) (ids acts) →
  Some (VStr (pretty t_id)) ∉ ids acts.
Proof.
  intros Hall Hin. rewrite Forall_forall in Hall.
  destruct (Hall _ Hin) as (t & Heq & Hlt).
  injection Heq as Heq. apply (inj pretty) in Heq. lia.
Qed.

(** * Properties of the analytics *)

(** ** getActivityCountsLast30Days *)

Section Counts.

Lemma in_last_30_days_window (now offsetNow offsetThen : Z) (a : Obj) :
  (truthy (a !! "date") = true → is_Some (act_day a)) →
  Analytics.in_last_30_days now offsetNow offsetThen a = true
  ↔ day_between (first_day now offsetNow offsetThen) (now / Analytics.DAY_MS) a.
Proof.
  intros Hvalid. unfold Analytics.in_last_30_days, Analytics.date_of, day_between.
  destruct (truthy (a !! "date")) eqn:Et.
  - destruct (Hvalid eq_refl) as [d Hd]. rewrite Hd.
    unfold act_day in Hd. destruct (a !! "date") as [[| | |s|]|]; try done.
    cbn [Analytics.date_time]. rewrite Hd. cbn [fmap option_fmap option_map].
    rewrite andb_true_iff, !Z.leb_le.
    unfold first_day, Analytics.thirtyDaysAgo, Analytics.ceil_div, Analytics.DAY_MS.
    change (1000 * 60 * 60 * 24) with 86400000.
    set (x := now + offsetNow - offsetThen).
    replace (now + offsetNow - 30 * 86400000 - offsetThen) with (x - 2592000000)
      by (subst x; lia).
    clearbody x. Z.div_mod_to_equations. lia.
  - assert (act_day a = None) as ->.
    { unfold act_day. destruct (a !! "date") as [[| | |s|]|]; try done.
      cbn in Et. apply negb_false_iff in Et. apply String.eqb_eq in Et.
      by subst. }
    split; [done|]. by intros [].
Qed.

(** With the same offset now and thirty days ago the window starts 29 days
    before the UTC day of [now], and 30 days before it at midnight UTC. *)
Lemma first_day_fixed_offset (now offset : Z) :
  first_day now offset offset
  = if (now mod Analytics.DAY_MS =? 0)%Z
    then now / Analytics.DAY_MS - 30 else now / Analytics.DAY_MS - 29.
Proof.
  unfold first_day, Analytics.ceil_div, Analytics.DAY_MS.
  change (1000 * 60 * 60 * 24) with 86400000.
  replace (now + offset - offset) with now by lia.
  destruct (Z.eqb_spec (now mod 86400000) 0); Z.div_mod_to_equations; lia.
Qed.

(** Offsets that differ by less than a day move the first day by at most
    one. *)
Lemma first_day_bounds (now offsetNow offsetThen : Z) :
  - Analytics.DAY_MS < offsetNow - offsetThen < Analytics.DAY_MS →
  now / Analytics.DAY_MS - 31 < first_day now offsetNow offsetThen
  ≤ now / Analytics.DAY_MS - 28.
Proof.
  unfold first_day, Analytics.ceil_div, Analytics.DAY_MS.
  change (1000 * 60 * 60 * 24) with 86400000. intros Hshift.
  Z.div_mod_to_equations. lia.
Qed.

Lemma tally_snoc (k : string) (l : list Obj) (a : Obj) :
  tally k (l ++ [a])
  = (tally k l + if decide (Analytics.count_key a = k) then 1 else 0)%nat.
Proof.
  unfold tally. rewrite filter_app, length_app, filter_cons, filter_nil.
  by case_decide.
Qed.

Lemma counted_first (k : string) :
  k ≠ "__proto__" →
  counted k 1
  = Some (if bool_decide (k ∈ Analytics.inherited_functions)
          then Analytics.Text 1 else Analytics.Number (0 + 1)).
Proof.
  intros Hk. unfold counted. cbn [Nat.eqb orb].
  rewrite (proj2 (String.eqb_neq _ _) Hk). by case_bool_decide.
Qed.

Lemma counted_next (k : string) (m : nat) :
  k ≠ "__proto__" →
  match counted k (S m) with
  | Some (Analytics.Number n) =>
      counted k (S (S m)) = Some (Analytics.Number ((if (n =? 0)%Z then 0 else n) + 1))
  | Some (Analytics.Text ones) =>
      counted k (S (S m)) = Some (Analytics.Text (S ones))
  | None => False
  end.
Proof.
  intros Hk. unfold counted. cbn [Nat.eqb orb].
  rewrite (proj2 (String.eqb_neq _ _) Hk). case_bool_decide; [done|].
  replace (Z.of_nat (S m) =? 0)%Z with false by (symmetry; apply Z.eqb_neq; lia).
  do 2 f_equal. lia.
Qed.

(** The loop holds, under every name, what [counted] describes. *)
Lemma counts_fold (l : list Obj) (k : string) :
  foldl Analytics.count_one ∅ l !! k = counted k (tally k l).
Proof.
  revert k. induction l as [|a l IH] using rev_ind; intros k.
  - cbn. rewrite lookup_empty. done.
  - rewrite foldl_app, tally_snoc. cbn [foldl].
    set (counts := foldl Analytics.count_one ∅ l) in *.
    unfold Analytics.count_one.
    destruct (String.eqb_spec (Analytics.count_key a) "__proto__") as [Hp|Hp].
    + rewrite IH. case_decide as Hk; [|by rewrite Nat.add_0_r].
      subst k. rewrite Hp. unfold counted.
      change (String.eqb "__proto__" "__proto__") with true.
      by rewrite !orb_true_r.
    + case_decide as Hk.
      * subst k. rewrite lookup_insert_eq, IH.
        destruct (tally (Analytics.count_key a) l) as [|m].
        -- cbn [Nat.add]. rewrite counted_first by done.
           unfold counted at 1. cbn [Nat.eqb orb]. done.
        -- replace (S m + 1)%nat with (S (S m)) by lia.
           pose proof (counted_next (Analytics.count_key a) m Hp) as Hnext.
           destruct (counted (Analytics.count_key a) (S m)) as [[n|ones]|];
             [by rewrite Hnext|by rewrite Hnext|done].
      * rewrite lookup_insert_ne by done. by rewrite IH, Nat.add_0_r.
Qed.

Lemma filter_window_tally (now offsetNow offsetThen : Z) (acts : list Obj) (k : string) :
  valid_dates acts →
  tally k (List.filter (Analytics.in_last_30_days now offsetNow offsetThen) acts)
  = length (filter (λ a, Analytics.count_key a = k
                         ∧ day_between (first_day now offsetNow offsetThen)
                             (now / Analytics.DAY_MS) a) acts).
Proof.
  unfold tally. induction 1 as [|a l Ha _ IH]; [done|].
  cbn [List.filter].
  pose proof (in_last_30_days_window now offsetNow offsetThen a Ha) as Hw.
  rewrite (filter_cons (λ a, _ ∧ _)).
  destruct (Analytics.in_last_30_days now offsetNow offsetThen a) eqn:E.
  - rewrite filter_cons. destruct (decide (Analytics.count_key a = k)).
    + rewrite decide_True by (split; [done|by apply Hw]). cbn. by rewrite IH.
    + rewrite decide_False by (by intros [? _]). exact IH.
  - rewrite decide_False; [exact IH|]. intros [_ Hb]. apply Hw in Hb. done.
Qed.

End Counts.




(** ** calculateAverageWorkHours *)

(** A work activity without a string [startTime] or [endTime] makes the
    loop raise, wherever it stands. *)
Lemma sum_work_minutes_raises (work : list Obj) (total : option Z) :
  Exists (λ a, ¬ ((∃ s, a !! "startTime" = Some (VStr s))
                  ∧ (∃ e, a !! "endTime" = Some (VStr e)))) work →
  Analytics.sum_work_minutes work total = Raised.
Proof.
  intros Hex. revert total. induction Hex as [a l Ha|a l _ IH]; intros total; cbn.
  - destruct (a !! "startTime") as [[| | |s|]|]; try done.
    destruct (a !! "endTime") as [[| | |e|]|]; try done.
    exfalso. apply Ha. eauto.
  - destruct (a !! "startTime") as [[| | |s|]|]; try done.
    destruct (a !! "endTime") as [[| | |e|]|]; try done.
Qed.

(** C10 at its failing input: one activity of the action ["work"] that has
    no [startTime] and no [endTime]; [activity.startTime.split] raises. *)
Theorem calculateAverageWorkHours_raises :
  let a : Obj :=
    <["id" := VStr "1717570000000"]> (<["actionId" := VStr "work"]>
      (<["date" := VStr "2024-06-05"]> (<["timestamp" := VNum 1717570000000]> ∅))) in
  a !! "startTime" = None
  ∧ a !! "endTime" = None
  ∧ Analytics.calculateAverageWorkHours [a] = Raised.
Proof. cbv zeta. repeat split; vm_compute; reflexivity. Qed.

(** ** Calendar facts *)

Section Calendar.

Import Analytics.

Lemma digit_range (c : ascii) (x : Z) : digit c = Some x → (0 ≤ x ≤ 9)%Z.
Proof.
  unfold digit. destruct (_ && _) eqn:E; [|done].
  intros [= <-]. apply andb_true_iff in E as [?%Z.leb_le ?%Z.leb_le]. lia.
Qed.

Lemma digit_compare (a b : ascii) (x y : Z) :
  digit a = Some x → digit b = Some y → Ascii.compare a b = (x ?= y)%Z.
Proof.
  unfold digit, Ascii.compare.
  destruct (_ && _); [|done]. destruct (_ && _); [|done].
  intros [= <-] [= <-].
  destruct (N.compare_spec (N_of_ascii a) (N_of_ascii b)); symmetry;
    [apply Z.compare_eq_iff | apply Z.compare_lt_iff | apply Z.compare_gt_iff]; lia.
Qed.

Lemma days_in_month_bound (y m : Z) : (days_in_month y m ≤ 31)%Z.
Proof.
  unfold days_in_month.
  repeat case_match; lia.
Qed.

(** What a successful parse tells about the string. *)
Lemma parse_civil_inv (s : string) (c : Z * Z * Z) :
  parse_civil s = Some c →
  ∃ a1 a2 a3 a4 b1 b2 c1 c2 y1 y2 y3 y4 m1 m2 d1 d2,
    s = String a1 (String a2 (String a3 (String a4 (String "-"
          (String b1 (String b2 (String "-" (String c1 (String c2 "")))))))))
    ∧ digit a1 = Some y1 ∧ digit a2 = Some y2 ∧ digit a3 = Some y3 ∧ digit a4 = Some y4
    ∧ digit b1 = Some m1 ∧ digit b2 = Some m2 ∧ digit c1 = Some d1 ∧ digit c2 = Some d2
    ∧ c = (1000 * y1 + 100 * y2 + 10 * y3 + y4, 10 * m1 + m2, 10 * d1 + d2)%Z
    ∧ valid_civil c.
Proof.
  intros H.
  do 10 (destruct s as [|? s]; [discriminate|]). destruct s; [|discriminate].
  cbn [parse_civil] in H.
  destruct (Ascii.eqb a3 "-") eqn:E1; [|discriminate].
  destruct (Ascii.eqb a6 "-") eqn:E2; [|discriminate].
  apply Ascii.eqb_eq in E1, E2. subst. cbn [andb] in H.
  destruct (digit a) as [y1|] eqn:?; [|discriminate].
  destruct (digit a0) as [y2|] eqn:?; [|discriminate].
  destruct (digit a1) as [y3|] eqn:?; [|discriminate].
  destruct (digit a2) as [y4|] eqn:?; [|discriminate].
  destruct (digit a4) as [m1|] eqn:?; [|discriminate].
  destruct (digit a5) as [m2|] eqn:?; [|discriminate].
  destruct (digit a7) as [d1|] eqn:?; [|discriminate].
  destruct (digit a8) as [d2|] eqn:?; [|discriminate].
  cbn [mbind option_bind] in H.
  destruct (_ && _) eqn:E; [|discriminate]. injection H as <-.
  repeat eexists; try eassumption.
  all: repeat (apply andb_true_iff in E as [E ?]);
    repeat match goal with H : (_ <=? _)%Z = true |- _ => apply Z.leb_le in H end; lia.
Qed.

(** Date-only strings compare as strings the way their dates compare as
    numbers. *)
Lemma parse_civil_compare (s t : string) (c e : Z * Z * Z) :
  parse_civil s = Some c → parse_civil t = Some e →
  String.compare s t = (civil_key c ?= civil_key e)%Z.
Proof.
  intros Hs Ht.
  apply parse_civil_inv in Hs
    as (a1&a2&a3&a4&b1&b2&c1&c2&y1&y2&y3&y4&m1&m2&d1&d2&->&?&?&?&?&?&?&?&?&->&_).
  apply parse_civil_inv in Ht
    as (a1'&a2'&a3'&a4'&b1'&b2'&c1'&c2'&y1'&y2'&y3'&y4'&m1'&m2'&d1'&d2'
        &->&?&?&?&?&?&?&?&?&->&_).
  repeat match goal with H : digit _ = Some _ |- _ =>
    pose proof (digit_range _ _ H); revert H end.
  intros. cbn [String.compare civil_key].
  rewrite (digit_compare a1 a1' y1 y1'), (digit_compare a2 a2' y2 y2'),
    (digit_compare a3 a3' y3 y3'), (digit_compare a4 a4' y4 y4'),
    (digit_compare b1 b1' m1 m1'), (digit_compare b2 b2' m2 m2'),
    (digit_compare c1 c1' d1 d1'), (digit_compare c2 c2' d2 d2') by assumption.
  change (Ascii.compare "-" "-") with Eq. cbv iota.
  symmetry.
  repeat match goal with
  | |- _ = match (?x ?= ?y)%Z with _ => _ end =>
      destruct (Z.compare_spec x y); [subst| |]
  end;
  first [ apply Z.compare_eq_iff | apply Z.compare_lt_iff | apply Z.compare_gt_iff ];
  lia.
Qed.

Lemma days_from_civil_split (y m d : Z) :
  days_from_civil y m d
  = (year_start (if (m <=? 2)%Z then y - 1 else y) + month_offset m + d - 719469)%Z.
Proof. reflexivity. Qed.

Lemma is_leap_spec (y : Z) :
  is_leap y = true ↔ (y mod 4 = 0 ∧ (y mod 100 ≠ 0 ∨ y mod 400 = 0))%Z.
Proof.
  unfold is_leap. rewrite andb_true_iff, orb_true_iff, negb_true_iff.
  rewrite !Z.eqb_eq, Z.eqb_neq. tauto.
Qed.

Lemma div_pred_4 (y : Z) : ((y - 1) / 4 = y / 4 - (if y mod 4 =? 0 then 1 else 0))%Z.
Proof. destruct (Z.eqb_spec (y mod 4) 0); Z.div_mod_to_equations; lia. Qed.

Lemma div_pred_100 (y : Z) :
  ((y - 1) / 100 = y / 100 - (if y mod 100 =? 0 then 1 else 0))%Z.
Proof. destruct (Z.eqb_spec (y mod 100) 0); Z.div_mod_to_equations; lia. Qed.

Lemma div_pred_400 (y : Z) :
  ((y - 1) / 400 = y / 400 - (if y mod 400 =? 0 then 1 else 0))%Z.
Proof. destruct (Z.eqb_spec (y mod 400) 0); Z.div_mod_to_equations; lia. Qed.

Lemma year_start_pred (y : Z) :
  year_start y = (year_start (y - 1) + 365 + (if is_leap y then 1 else 0))%Z.
Proof.
  unfold year_start, is_leap.
  rewrite div_pred_4, div_pred_100, div_pred_400.
  assert (y mod 400 = 0 → y mod 100 = 0)%Z by (Z.div_mod_to_equations; lia).
  assert (y mod 100 = 0 → y mod 4 = 0)%Z by (Z.div_mod_to_equations; lia).
  destruct (Z.eqb_spec (y mod 4) 0), (Z.eqb_spec (y mod 100) 0),
    (Z.eqb_spec (y mod 400) 0); cbn [andb orb negb]; lia.
Qed.

Lemma year_start_mono (y1 y2 : Z) : (y1 ≤ y2)%Z → (year_start y1 ≤ year_start y2)%Z.
Proof.
  intros Hle. replace y2 with (y1 + Z.of_nat (Z.to_nat (y2 - y1)))%Z by lia.
  induction (Z.to_nat (y2 - y1)) as [|n IH].
  - rewrite Z.add_0_r. lia.
  - rewrite (year_start_pred (y1 + Z.of_nat (S n))).
    replace (y1 + Z.of_nat (S n) - 1)%Z with (y1 + Z.of_nat n)%Z by lia.
    destruct (is_leap _); lia.
Qed.

Ltac month_cases m :=
  let H := fresh in
  assert (m = 1 ∨ m = 2 ∨ m = 3 ∨ m = 4 ∨ m = 5 ∨ m = 6 ∨ m = 7 ∨ m = 8 ∨ m = 9
          ∨ m = 10 ∨ m = 11 ∨ m = 12)%Z as H by lia;
  destruct H as [->|[->|[->|[->|[->|[->|[->|[->|[->|[->|[->| ->]]]]]]]]]]].

Ltac eval_months :=
  repeat match goal with
  | |- context [(Zpos ?p - 1)%Z] =>
      let v := eval vm_compute in (Zpos p - 1)%Z in change (Zpos p - 1)%Z with v
  | |- context [month_offset ?m] =>
      let v := eval vm_compute in (month_offset m) in change (month_offset m) with v
  | |- context [days_in_month ?y ?m] =>
      let v := eval cbv [days_in_month] in (days_in_month y m) in
      change (days_in_month y m) with v
  | H : context [days_in_month ?y ?m] |- _ =>
      let v := eval cbv [days_in_month] in (days_in_month y m) in
      change (days_in_month y m) with v in H
  end;
  cbn [Z.leb Z.compare Pos.compare Pos.compare_cont].

(** Later dates have larger day numbers. *)
Lemma civil_day_lt (c e : Z * Z * Z) :
  valid_civil c → valid_civil e →
  (civil_key c < civil_key e)%Z → (civil_day c < civil_day e)%Z.
Proof.
  destruct c as [[y1 m1] d1], e as [[y2 m2] d2].
  unfold valid_civil, civil_key, civil_day. intros [Hm1 Hd1] [Hm2 Hd2] Hkey.
  rewrite !days_from_civil_split.
  pose proof (year_start_pred y1). pose proof (year_start_pred y2).
  assert (y1 < y2 → year_start y1 ≤ year_start (y2 - 1))%Z
    by (intros; apply year_start_mono; lia).
  assert (y1 = y2 ∨ y1 ≠ y2) as [->|Hne] by lia.
  - month_cases m1; month_cases m2; eval_months; destruct (is_leap y2); lia.
  - pose proof (days_in_month_bound y1 m1). pose proof (days_in_month_bound y2 m2).
    assert (y1 < y2)%Z by lia.
    month_cases m1; month_cases m2; eval_months;
      destruct (is_leap y1); destruct (is_leap y2); lia.
Qed.

Lemma parse_date_civil (s : string) (d : Z) :
  parse_date s = Some d ↔ ∃ c, parse_civil s = Some c ∧ d = civil_day c.
Proof.
  unfold parse_date. destruct (parse_civil s) as [[[y m] dd]|]; cbn.
  - split.
    + intros [= <-]. by eexists.
    + intros (c & [= <-] & ->). done.
  - split; [done|]. by intros (c & ? & _).
Qed.

Lemma civil_key_inj (c e : Z * Z * Z) :
  valid_civil c → valid_civil e → civil_key c = civil_key e → c = e.
Proof.
  destruct c as [[y1 m1] d1], e as [[y2 m2] d2]. cbn.
  pose proof (days_in_month_bound y1 m1). pose proof (days_in_month_bound y2 m2).
  intros [? ?] [? ?] Hk.
  assert (y1 = y2 ∧ m1 = m2 ∧ d1 = d2) as (-> & -> & ->) by lia. done.
Qed.

(** Date-only strings are ordered as the days they name. *)
Lemma parse_date_order (s t : string) (d1 d2 : Z) :
  parse_date s = Some d1 → parse_date t = Some d2 →
  String.leb s t = true ↔ (d1 ≤ d2)%Z.
Proof.
  intros (c & Hc & ->)%parse_date_civil (e & He & ->)%parse_date_civil.
  unfold String.leb. rewrite (parse_civil_compare s t c e Hc He).
  apply parse_civil_inv in Hc
    as (?&?&?&?&?&?&?&?&?&?&?&?&?&?&?&?&_&_&_&_&_&_&_&_&_&_&Hvc).
  apply parse_civil_inv in He
    as (?&?&?&?&?&?&?&?&?&?&?&?&?&?&?&?&_&_&_&_&_&_&_&_&_&_&Hve).
  destruct (Z.compare_spec (civil_key c) (civil_key e)) as [Heq|Hlt|Hgt].
  - apply civil_key_inj in Heq; [|done..]. subst. split; [lia|done].
  - pose proof (civil_day_lt c e Hvc Hve Hlt). split; [lia|done].
  - pose proof (civil_day_lt e c Hve Hvc Hgt). split; [done|lia].
Qed.

Lemma parse_date_inj (s t : string) (d : Z) :
  parse_date s = Some d → parse_date t = Some d → s = t.
Proof.
  intros Hs Ht. apply String.leb_antisym.
  - apply (parse_date_order s t d d Hs Ht). lia.
  - apply (parse_date_order t s d d Ht Hs). lia.
Qed.

(** The day before, as [setDate(getDate() - 1)] finds it, is the day with
    the preceding number. *)
Lemma day_before_spec (c : Z * Z * Z) :
  valid_civil c →
  valid_civil (day_before c) ∧ civil_day (day_before c) = (civil_day c - 1)%Z.
Proof.
  destruct c as [[y m] d]. unfold valid_civil, day_before, civil_day.
  intros [Hm Hd].
  destruct (Z.ltb_spec 1 d).
  - split; [lia|]. rewrite !days_from_civil_split. lia.
  - assert (d = 1) as -> by lia.
    destruct (Z.ltb_spec 1 m).
    + rewrite !days_from_civil_split. pose proof (year_start_pred y).
      month_cases m; try lia; eval_months; destruct (is_leap y); lia.
    + assert (m = 1) as -> by lia. split; [cbn; lia|].
      rewrite !days_from_civil_split. eval_months. lia.
Qed.

Lemma digit_digit_char (k : Z) : (0 ≤ k ≤ 9)%Z → digit (digit_char k) = Some k.
Proof.
  intros Hk.
  assert (k = 0 ∨ k = 1 ∨ k = 2 ∨ k = 3 ∨ k = 4 ∨ k = 5 ∨ k = 6 ∨ k = 7 ∨ k = 8 ∨ k = 9)%Z
    as H by lia.
  destruct H as [->|[->|[->|[->|[->|[->|[->|[->|[->| ->]]]]]]]]]; reflexivity.
Qed.

Lemma pad_two_digits (n : Z) : (0 ≤ n ≤ 99)%Z → padStart2 (pretty n) = two_digits n.
Proof.
  intros Hn.
  assert (Forall (λ n, padStart2 (pretty n) = two_digits n) (seqZ 0 100)) as Hall.
  { apply (bool_decide_unpack _). vm_compute. reflexivity. }
  rewrite Forall_forall in Hall. apply Hall, elem_of_seqZ. lia.
Qed.

Lemma pretty_four_digits (y : Z) : (1000 ≤ y ≤ 9999)%Z → pretty y = four_digits y.
Proof.
  intros Hy.
  assert (Forall (λ y, pretty y = four_digits y) (seqZ 1000 9000)) as Hall.
  { apply (bool_decide_unpack _). vm_compute. reflexivity. }
  rewrite Forall_forall in Hall. apply Hall, elem_of_seqZ. lia.
Qed.

(** The local date string of a day of the years 1000 to 9999 parses back to
    that day. *)
Lemma parse_local_date_string (c : Z * Z * Z) :
  valid_civil c → (1000 ≤ c.1.1 ≤ 9999)%Z →
  parse_date (local_date_string c) = Some (civil_day c).
Proof.
  destruct c as [[y m] d]. cbn [fst]. intros [Hm Hd] Hy.
  pose proof (days_in_month_bound y m).
  apply parse_date_civil. exists (y, m, d). split; [|done].
  unfold local_date_string.
  rewrite pretty_four_digits, !pad_two_digits by lia.
  unfold four_digits, two_digits.
  repeat (change (String ?a ?u +:+ ?v) with (String a (u +:+ v))
          || change ("" +:+ ?v) with v).
  cbn [parse_civil].
  change (Ascii.eqb "-" "-") with true. cbn [andb].
  rewrite !digit_digit_char by (Z.div_mod_to_equations; lia).
  cbn [mbind option_bind].
  replace (1000 * (y / 1000) + 100 * (y / 100 mod 10) + 10 * (y / 10 mod 10) + y mod 10)%Z
    with y by (Z.div_mod_to_equations; lia).
  replace (10 * (m / 10) + m mod 10)%Z with m by (Z.div_mod_to_equations; lia).
  replace (10 * (d / 10) + d mod 10)%Z with d by (Z.div_mod_to_equations; lia).
  destruct (_ && _) eqn:E; [done|]. exfalso.
  rewrite !andb_false_iff, !Z.leb_gt in E. lia.
Qed.

End Calendar.

(** ** calculateActionStreak *)

Section Streak.

Import Analytics.

Lemma good_date_str (v : JVal) :
  good_date v → ∃ s d, v = VStr s ∧ parse_date s = Some d ∧ day_or0 v = d.
Proof.
  intros [d Hd]. unfold day_or0. rewrite Hd.
  destruct v; try done. cbn in Hd. eauto.
Qed.

Lemma good_date_inj (v w : JVal) :
  good_date v → good_date w → day_or0 v = day_or0 w → v = w.
Proof.
  intros (s & d & -> & Hs & Hd)%good_date_str (t & e & -> & Ht & He)%good_date_str Heq.
  f_equal. apply (parse_date_inj s t d); [done|]. rewrite Ht. f_equal. lia.
Qed.

Lemma good_date_leb (v w : JVal) :
  good_date v → good_date w →
  String.leb (to_str v) (to_str w) = true ↔ (day_or0 v ≤ day_or0 w)%Z.
Proof.
  intros (s & d & -> & Hs & ->)%good_date_str (t & e & -> & Ht & ->)%good_date_str.
  cbn [to_str]. by apply parse_date_order.
Qed.

Lemma falsy_date_no_day (a : Obj) : truthy (a !! "date") = false → act_day a = None.
Proof.
  intros Et. unfold act_day. destruct (a !! "date") as [[| | |s|]|]; try done.
  cbn in Et. apply negb_false_iff in Et. apply String.eqb_eq in Et. by subst.
Qed.

Lemma date_of_day (a : Obj) :
  (truthy (a !! "date") = true → is_Some (act_day a)) →
  match date_of a with
  | Some v => good_date v ∧ day_of_val v = act_day a
  | None => act_day a = None
  end.
Proof.
  intros Hvalid. unfold date_of. destruct (truthy (a !! "date")) eqn:Et.
  - destruct (Hvalid eq_refl) as [d Hd]. unfold act_day in *.
    destruct (a !! "date") as [[| | |s|]|]; try done.
    split; [by exists d|done].
  - by apply falsy_date_no_day.
Qed.

(** The dates collected are well formed, and name the matching days. *)
Lemma collected_dates (l : list Obj) :
  valid_dates l →
  Forall good_date (omap date_of l)
  ∧ omap day_of_val (omap date_of l) = omap act_day l.
Proof.
  induction 1 as [|a l Ha _ [IH1 IH2]]; [by split|].
  apply date_of_day in Ha. cbn [omap list_omap].
  destruct (date_of a) as [v|].
  - destruct Ha as [Hg Hd]. cbn [omap list_omap]. rewrite Hd.
    split; [by constructor|]. destruct (act_day a); by rewrite IH2.
  - rewrite Ha. by split.
Qed.

Lemma valid_dates_filter (p : Obj → bool) (l : list Obj) :
  valid_dates l → valid_dates (List.filter p l).
Proof.
  unfold valid_dates. induction 1 as [|a l Ha _ IH]; [constructor|].
  cbn. destruct (p a); [by constructor|done].
Qed.

Lemma includes_value (acc : list JVal) (v : JVal) :
  good_date v → includes (Some <$> acc) (Some v) = true ↔ v ∈ acc.
Proof.
  intros (s & d & -> & _)%good_date_str. rewrite includes_scalar by done.
  rewrite list_elem_of_fmap. split.
  - by intros (w & [= <-] & Hw).
  - intros Hin. by exists (VStr s).
Qed.

(** [set_of] keeps one copy of every date. *)
Lemma set_of_acc (l acc : list JVal) :
  Forall good_date l → NoDup acc →
  NoDup (foldl (λ acc v, if includes (Some <$> acc) (Some v) then acc else acc ++ [v]) acc l)
  ∧ ∀ v, v ∈ foldl (λ acc v, if includes (Some <$> acc) (Some v) then acc else acc ++ [v])
               acc l
         ↔ v ∈ acc ∨ v ∈ l.
Proof.
  intros Hl. revert acc. induction Hl as [|w l Hw _ IH]; intros acc Hacc.
  - cbn. split; [done|]. intros v. rewrite elem_of_nil. tauto.
  - cbn [foldl]. pose proof (includes_value acc w Hw) as Hinc.
    destruct (includes (Some <$> acc) (Some w)) eqn:E.
    + destruct (IH acc Hacc) as [IHn IHm]. split; [done|].
      intros v. rewrite IHm, elem_of_cons.
      assert (w ∈ acc) by (by apply Hinc). split; [tauto|].
      intros [?|[->|?]]; tauto.
    + assert (w ∉ acc) as Hout by (intros Hin; apply Hinc in Hin; done).
      assert (NoDup (acc ++ [w])) as Hacc'.
      { apply NoDup_app. split; [done|]. split; [|apply NoDup_singleton].
        intros x Hx Hin. apply list_elem_of_singleton in Hin. by subst. }
      destruct (IH _ Hacc') as [IHn IHm]. split; [done|].
      intros v. rewrite IHm, elem_of_app, list_elem_of_singleton, elem_of_cons. tauto.
Qed.

Lemma set_of_spec (l : list JVal) :
  Forall good_date l → NoDup (set_of l) ∧ ∀ v, v ∈ set_of l ↔ v ∈ l.
Proof.
  intros Hl. destruct (set_of_acc l [] Hl (NoDup_nil_2)) as [Hn Hm].
  split; [exact Hn|]. intros v. unfold set_of. rewrite Hm, elem_of_nil. tauto.
Qed.

Lemma insert_sorted_perm (v : JVal) (l : list JVal) : insert_sorted v l ≡ₚ v :: l.
Proof.
  induction l as [|w l IH]; [done|]. cbn.
  destruct (String.leb _ _); [done|]. rewrite IH. apply Permutation_swap.
Qed.

Lemma sort_perm (l : list JVal) : sort l ≡ₚ l.
Proof.
  induction l as [|v l IH]; [done|]. cbn. by rewrite insert_sorted_perm, IH.
Qed.

Lemma HdRel_insert_sorted (d : Z) (v : JVal) (l : list JVal) :
  (d ≤ day_or0 v)%Z → HdRel Z.le d (days_of l) →
  HdRel Z.le d (days_of (insert_sorted v l)).
Proof.
  intros Hv Hl. destruct l as [|w l]; cbn; [by constructor|].
  destruct (String.leb _ _); constructor; [done|]. by inversion Hl.
Qed.

Lemma insert_sorted_days (v : JVal) (l : list JVal) :
  good_date v → Forall good_date l →
  Sorted Z.le (days_of l) → Sorted Z.le (days_of (insert_sorted v l)).
Proof.
  intros Hv Hl. induction Hl as [|w l Hw Hl IH]; intros Hs.
  - cbn. by repeat constructor.
  - cbn [insert_sorted]. pose proof (good_date_leb v w Hv Hw) as Hle.
    destruct (String.leb (to_str v) (to_str w)).
    + cbn. constructor; [done|]. constructor. by apply Hle.
    + cbn. cbn in Hs. apply Sorted_inv in Hs as [Hs Hhd].
      constructor; [by apply IH|].
      apply HdRel_insert_sorted; [|done].
      destruct (Z.le_gt_cases (day_or0 v) (day_or0 w)) as [Hc|Hc]; [|lia].
      apply Hle in Hc. done.
Qed.

Lemma sort_good (l : list JVal) : Forall good_date l → Forall good_date (sort l).
Proof. intros Hl. by rewrite sort_perm. Qed.

Lemma sort_days (l : list JVal) :
  Forall good_date l → Sorted Z.le (days_of (sort l)).
Proof.
  induction 1 as [|v l Hv Hl IH]; [constructor|].
  cbn [sort foldr]. apply insert_sorted_days; [done| |done].
  by apply sort_good.
Qed.

Lemma strictly_sorted (ds : list Z) :
  Sorted Z.le ds → NoDup ds → StronglySorted Z.lt ds.
Proof.
  intros Hs%Sorted_StronglySorted Hn; [|apply _].
  induction Hs as [|d ds Hs IH Hall]; [constructor|].
  apply NoDup_cons in Hn as [Hd Hn]. constructor; [by apply IH|].
  rewrite Forall_forall in *. intros e He.
  assert (d ≠ e) by (intros ->; done). specialize (Hall e He). lia.
Qed.

(** The dates that [calculateActionStreak] walks: without repetition, in
    the order of their days, and naming the matching days. *)
Lemma action_dates_spec (acts : list Obj) (actionId : string) :
  valid_dates acts →
  Forall good_date (action_dates acts actionId)
  ∧ NoDup (action_dates acts actionId)
  ∧ StronglySorted Z.lt (days_of (action_dates acts actionId))
  ∧ ∀ d, d ∈ days_of (action_dates acts actionId) ↔ d ∈ matching_days acts actionId.
Proof.
  intros Hvalid. unfold action_dates, matching_days.
  set (l := List.filter (streak_match actionId) acts).
  destruct (collected_dates l) as [Hgood Hdays];
    [by apply valid_dates_filter|].
  set (raw := omap date_of l) in *.
  destruct (set_of_spec raw Hgood) as [Hnd Hmem].
  assert (Forall good_date (set_of raw)) as Hgs.
  { rewrite Forall_forall in *. intros v Hv. apply Hgood. by apply Hmem. }
  assert (Forall good_date (sort (set_of raw))) as Hgsort by (by apply sort_good).
  assert (NoDup (sort (set_of raw))) as Hnsort by (by rewrite sort_perm).
  split; [done|]. split; [done|]. split.
  - apply strictly_sorted; [by apply sort_days|].
    unfold days_of. apply NoDup_fmap_2_strong; [|done].
    intros v w Hv Hw. rewrite Forall_forall in Hgsort.
    apply good_date_inj; by apply Hgsort.
  - intros d. rewrite <- Hdays. unfold days_of.
    rewrite list_elem_of_fmap, list_elem_of_omap. split.
    + intros (v & -> & Hv). rewrite sort_perm in Hv. exists v.
      split; [by apply Hmem|]. rewrite Forall_forall in Hgood.
      destruct (Hgood v) as [e He]; [by apply Hmem|].
      unfold day_or0. by rewrite He.
    + intros (v & Hv & Hd). exists v. split.
      * unfold day_or0. by rewrite Hd.
      * rewrite sort_perm. by apply Hmem.
Qed.

Lemma date_time_good (v : JVal) :
  good_date v → date_time v = Some (day_or0 v * DAY_MS)%Z.
Proof.
  intros (s & d & -> & Hs & ->)%good_date_str. cbn. by rewrite Hs.
Qed.

Lemma ceil_div_days (a b : Z) : ceil_div (a * DAY_MS - b * DAY_MS) DAY_MS = (a - b)%Z.
Proof.
  unfold ceil_div.
  replace (- (a * DAY_MS - b * DAY_MS))%Z with ((b - a) * DAY_MS)%Z by lia.
  rewrite Z.div_mul by done. lia.
Qed.

Lemma count_consecutive_step (v w : JVal) (rest : list JVal) :
  count_consecutive (v :: w :: rest)
  = match date_time v, date_time w with
    | Some c, Some p =>
        if (ceil_div (c - p) DAY_MS =? 1)%Z then (1 + count_consecutive (w :: rest))%Z
        else 0%Z
    | _, _ => 0%Z
    end.
Proof. reflexivity. Qed.

(** The loop counts the run of consecutive days that ends at the first
    date it is given. *)
Lemma count_consecutive_run (rest : list JVal) (v : JVal) :
  Forall good_date (v :: rest) →
  StronglySorted (flip Z.lt) (days_of (v :: rest)) →
  run_ending (day_or0 v) (days_of (v :: rest)) (1 + count_consecutive (v :: rest)).
Proof.
  revert v. induction rest as [|w rest IH]; intros v Hgood Hsorted.
  - cbn. split; [lia|]. split.
    + intros i Hi. replace i with 0%Z by lia. rewrite Z.sub_0_r. by left.
    + intros Hin. apply list_elem_of_singleton in Hin. lia.
  - apply Forall_cons in Hgood as [Hv Hgood].
    pose proof Hgood as Hgood'. apply Forall_cons in Hgood' as [Hw _].
    cbn [days_of fmap list_fmap] in Hsorted.
    apply StronglySorted_inv in Hsorted as [Htail Hall].
    destruct (IH w Hgood Htail) as (Hn & Hrun & Hend).
    pose proof Hall as Hall'. apply Forall_cons in Hall' as [Hwv _]. unfold flip in Hwv.
    pose proof Htail as Htail'. cbn [days_of fmap list_fmap] in Htail'.
    apply StronglySorted_inv in Htail' as [_ Hbelow].
    rewrite count_consecutive_step, (date_time_good v Hv), (date_time_good w Hw).
    rewrite ceil_div_days.
    change (days_of (v :: w :: rest)) with (day_or0 v :: days_of (w :: rest)).
    destruct (Z.eqb_spec (day_or0 v - day_or0 w) 1) as [Hstep|Hgap].
    + split; [lia|]. split.
      * intros i Hi. destruct (decide (i = 0)) as [->|Hi0].
        -- rewrite Z.sub_0_r. by left.
        -- right. replace (day_or0 v - i)%Z with (day_or0 w - (i - 1))%Z by lia.
           apply Hrun. lia.
      * intros Hin. apply elem_of_cons in Hin as [Heq|Hin]; [lia|].
        apply Hend.
        by replace (day_or0 w - (1 + count_consecutive (w :: rest)))%Z
          with (day_or0 v - (1 + (1 + count_consecutive (w :: rest))))%Z by lia.
    + split; [lia|]. split.
      * intros i Hi. replace i with 0%Z by lia. rewrite Z.sub_0_r. by left.
      * intros Hin. apply elem_of_cons in Hin as [Heq|Hin]; [lia|].
        change (days_of (w :: rest)) with (day_or0 w :: days_of rest) in Hin.
        apply elem_of_cons in Hin as [Heq|Hin]; [lia|].
        rewrite Forall_forall in Hbelow. specialize (Hbelow _ Hin).
        unfold flip in Hbelow. lia.
Qed.

Lemma good_local_date_string (c : Z * Z * Z) :
  valid_civil c → (1000 ≤ c.1.1 ≤ 9999)%Z →
  good_date (VStr (local_date_string c))
  ∧ day_or0 (VStr (local_date_string c)) = civil_day c.
Proof.
  intros Hc Hy. pose proof (parse_local_date_string c Hc Hy) as Hp.
  unfold good_date, day_or0. cbn [day_of_val]. rewrite Hp. split; [by eexists|done].
Qed.

(** The test [actionDates.indexOf(today) !== -1]. *)
Lemma today_among (L : list JVal) (today : Z * Z * Z) :
  valid_civil today → (1000 ≤ today.1.1 ≤ 9999)%Z → Forall good_date L →
  includes (Some <$> L) (Some (VStr (local_date_string today))) = true
  ↔ civil_day today ∈ days_of L.
Proof.
  intros Hc Hy HL. destruct (good_local_date_string today Hc Hy) as [Hg Hd].
  rewrite includes_value by done. unfold days_of. rewrite list_elem_of_fmap. split.
  - intros Hin. by exists (VStr (local_date_string today)).
  - intros (v & Hv & Hin). rewrite Forall_forall in HL.
    assert (VStr (local_date_string today) = v) as ->; [|done].
    apply good_date_inj; [done|by apply HL|]. by rewrite Hd.
Qed.

(** The test [lastActionDate === yesterdayStr]. *)
Lemma last_is_yesterday (L : list JVal) (today : Z * Z * Z) :
  valid_civil today → (1001 ≤ today.1.1 ≤ 9999)%Z → Forall good_date L →
  strict_eq (last L) (Some (VStr (local_date_string (day_before today)))) = true
  ↔ last (days_of L) = Some (civil_day today - 1)%Z.
Proof.
  intros Hc Hy HL. destruct (day_before_spec today Hc) as [Hyc Hyd].
  assert (1000 ≤ (day_before today).1.1 ≤ 9999)%Z as Hyy.
  { destruct today as [[y m] d]. cbn in *. repeat case_match; cbn; lia. }
  destruct (good_local_date_string (day_before today) Hyc Hyy) as [Hg Hd].
  rewrite strict_eq_scalar by done. unfold days_of. rewrite fmap_last. split.
  - intros ->. cbn [fmap option_fmap option_map]. by rewrite Hd, Hyd.
  - destruct (last L) as [v|] eqn:Hlast; [|done].
    cbn [fmap option_fmap option_map]. intros [= Hv]. f_equal.
    apply good_date_inj; [|done|lia].
    rewrite Forall_forall in HL. apply HL. by eapply last_Some_elem_of.
Qed.

Lemma run_ending_ext (latest n : Z) (D E : list Z) :
  (∀ d, d ∈ D ↔ d ∈ E) → run_ending latest D n → run_ending latest E n.
Proof.
  intros Hext (Hn & Hrun & Hend). split; [done|]. split.
  - intros i Hi. by apply Hext, Hrun.
  - intros Hin. by apply Hend, Hext.
Qed.

(** The streak, when no matching activity is dated after today. *)
Lemma streak_spec (today : Z * Z * Z) (acts : list Obj) (actionId : string) :
  valid_civil today → (1970 ≤ today.1.1 ≤ 9999)%Z →
  valid_dates acts →
  Forall (λ d, d ≤ civil_day today)%Z (matching_days acts actionId) →
  let T := civil_day today in
  let D := matching_days acts actionId in
  let n := calculateActionStreak today acts actionId in
  if decide (T ∈ D) then run_ending T D n
  else if decide ((T - 1)%Z ∈ D) then run_ending (T - 1) D n
  else n = 0%Z.
Proof.
  intros Hc Hy Hvalid Hpast T D n.
  destruct (action_dates_spec acts actionId Hvalid) as (Hgood & Hnd & Hss & Hmem).
  fold D in Hmem, Hpast. subst n. unfold calculateActionStreak. cbv zeta.
  set (L := action_dates acts actionId) in *.
  destruct (length acts =? 0)%nat eqn:Eacts.
  { apply Nat.eqb_eq, nil_length_inv in Eacts. subst acts.
    assert (D = []) as -> by done.
    rewrite !decide_False by apply not_elem_of_nil. done. }
  destruct (length L =? 0)%nat eqn:EL.
  { apply Nat.eqb_eq, nil_length_inv in EL.
    assert (∀ d, d ∉ D) as Hempty.
    { intros d Hd. apply Hmem in Hd. rewrite EL in Hd. by apply not_elem_of_nil in Hd. }
    rewrite !decide_False by apply Hempty. done. }
  destruct (reverse L) as [|v rest] eqn:Hrev.
  { apply (f_equal reverse) in Hrev. rewrite reverse_involutive in Hrev.
    by rewrite Hrev in EL. }
  assert (Forall good_date (v :: rest)) as Hgrev.
  { rewrite <- Hrev. by rewrite reverse_Permutation. }
  assert (days_of (v :: rest) = reverse (days_of L)) as Hdrev.
  { rewrite <- Hrev. unfold days_of. by rewrite fmap_reverse. }
  assert (StronglySorted (flip Z.lt) (days_of (v :: rest))) as Hsrev.
  { rewrite Hdrev. apply Sorted_StronglySorted.
    - intros x y z. unfold flip. lia.
    - apply Sorted_reverse. by apply StronglySorted_Sorted. }
  assert (∀ d, d ∈ days_of (v :: rest) ↔ d ∈ D) as Hmrev.
  { intros d. rewrite Hdrev, elem_of_reverse. apply Hmem. }
  pose proof (count_consecutive_run rest v Hgrev Hsrev) as Hrun.
  apply (run_ending_ext _ _ _ D Hmrev) in Hrun.
  assert (last L = Some v) as Hlast.
  { by rewrite <- head_reverse, Hrev. }
  assert (day_or0 v ∈ D) as HvD.
  { apply Hmrev. by left. }
  assert (∀ d, d ∈ D → d ≤ day_or0 v)%Z as Hmax.
  { intros d Hd. apply Hmrev in Hd.
    change (days_of (v :: rest)) with (day_or0 v :: days_of rest) in Hd, Hsrev.
    apply StronglySorted_inv in Hsrev as [_ Hbelow].
    apply elem_of_cons in Hd as [->|Hd]; [lia|].
    rewrite Forall_forall in Hbelow. specialize (Hbelow d Hd). unfold flip in Hbelow. lia. }
  assert (day_or0 v ≤ T)%Z as HvT.
  { rewrite Forall_forall in Hpast. by apply Hpast. }
  pose proof (today_among L today Hc ltac:(lia) Hgood) as Htoday.
  pose proof (last_is_yesterday L today Hc ltac:(lia) Hgood) as Hyest.
  fold T in Htoday, Hyest.
  assert (last (days_of L) = Some (day_or0 v)) as Hlastd.
  { unfold days_of. by rewrite fmap_last, Hlast. }
  rewrite Hlastd in Hyest. rewrite Hmem in Htoday.
  destruct (decide (T ∈ D)) as [HT|HT].
  - assert (T ≤ day_or0 v)%Z by (by apply Hmax).
    apply Htoday in HT as ->. cbn [negb andb].
    assert (day_or0 v = T) as <- by lia. done.
  - assert (includes (Some <$> L) (Some (VStr (local_date_string today))) = false) as ->.
    { destruct (includes _ _); [|done]. exfalso. by apply HT, Htoday. }
    cbn [negb andb].
    destruct (decide ((T - 1)%Z ∈ D)) as [HY|HY].
    + assert (day_or0 v = T - 1)%Z as Hv1.
      { assert (T - 1 ≤ day_or0 v)%Z by (by apply Hmax).
        assert (day_or0 v ≠ T) by (intros Heq; by rewrite Heq in HvD). lia. }
      assert (strict_eq (last L)
                (Some (VStr (local_date_string (day_before today)))) = true) as ->.
      { apply Hyest. by rewrite Hv1. }
      cbn [negb]. by rewrite <- Hv1.
    + assert (strict_eq (last L)
                (Some (VStr (local_date_string (day_before today)))) = false) as ->.
      { destruct (strict_eq _ _); [|done]. exfalso. apply HY.
        assert (Some (day_or0 v) = Some (T - 1)%Z) as [= <-] by (by apply Hyest). done. }
      done.
Qed.

Lemma latest_day_spec (D : list Z) :
  match latest_day D with
  | Some M => M ∈ D ∧ ∀ d, d ∈ D → (d ≤ M)%Z
  | None => D = []
  end.
Proof.
  induction D as [|d D IH]; [done|]. cbn [latest_day foldr]. fold (latest_day D).
  destruct (latest_day D) as [M|]; cbn [from_option].
  - destruct IH as [HM Hmax]. split.
    + destruct (Z.max_spec d M) as [[_ ->]|[_ ->]]; [by right|by left].
    + intros e He. apply elem_of_cons in He as [->|He]; [lia|].
      specialize (Hmax e He). lia.
  - subst D. split; [by left|]. intros e He. apply list_elem_of_singleton in He. lia.
Qed.

Lemma latest_day_is (D : list Z) (M : Z) :
  M ∈ D → (∀ d, d ∈ D → (d ≤ M)%Z) → latest_day D = Some M.
Proof.
  intros HM Hmax. pose proof (latest_day_spec D) as Hspec.
  destruct (latest_day D) as [M'|].
  - destruct Hspec as [HM' Hmax']. f_equal.
    specialize (Hmax M' HM'). specialize (Hmax' M HM). lia.
  - subst D. by apply elem_of_nil in HM.
Qed.

(** The streak on any collection with well-formed dates: the run is
    counted back from the latest matching day, wherever that day lies, as
    soon as today is a matching day or the latest matching day is
    yesterday. *)
Lemma streak_any (today : Z * Z * Z) (acts : list Obj) (actionId : string) :
  valid_civil today → (1970 ≤ today.1.1 ≤ 9999)%Z →
  valid_dates acts →
  let T := civil_day today in
  let D := matching_days acts actionId in
  let n := calculateActionStreak today acts actionId in
  match latest_day D with
  | Some M => if decide (T ∈ D ∨ M = (T - 1)%Z) then run_ending M D n else n = 0%Z
  | None => n = 0%Z
  end.
Proof.
  intros Hc Hy Hvalid T D n.
  destruct (action_dates_spec acts actionId Hvalid) as (Hgood & Hnd & Hss & Hmem).
  fold D in Hmem. subst n. unfold calculateActionStreak. cbv zeta.
  set (L := action_dates acts actionId) in *.
  destruct (length acts =? 0)%nat eqn:Eacts.
  { apply Nat.eqb_eq, nil_length_inv in Eacts. subst acts. done. }
  destruct (length L =? 0)%nat eqn:EL.
  { apply Nat.eqb_eq, nil_length_inv in EL.
    assert (∀ d, d ∉ D) as Hempty.
    { intros d Hd. apply Hmem in Hd. rewrite EL in Hd. by apply not_elem_of_nil in Hd. }
    pose proof (latest_day_spec D) as Hlatest.
    destruct (latest_day D) as [M|]; [|done].
    destruct Hlatest as [HM _]. by apply Hempty in HM. }
  destruct (reverse L) as [|v rest] eqn:Hrev.
  { apply (f_equal reverse) in Hrev. rewrite reverse_involutive in Hrev.
    by rewrite Hrev in EL. }
  assert (Forall good_date (v :: rest)) as Hgrev.
  { rewrite <- Hrev. by rewrite reverse_Permutation. }
  assert (days_of (v :: rest) = reverse (days_of L)) as Hdrev.
  { rewrite <- Hrev. unfold days_of. by rewrite fmap_reverse. }
  assert (StronglySorted (flip Z.lt) (days_of (v :: rest))) as Hsrev.
  { rewrite Hdrev. apply Sorted_StronglySorted.
    - intros x y z. unfold flip. lia.
    - apply Sorted_reverse. by apply StronglySorted_Sorted. }
  assert (∀ d, d ∈ days_of (v :: rest) ↔ d ∈ D) as Hmrev.
  { intros d. rewrite Hdrev, elem_of_reverse. apply Hmem. }
  pose proof (count_consecutive_run rest v Hgrev Hsrev) as Hrun.
  apply (run_ending_ext _ _ _ D Hmrev) in Hrun.
  assert (last L = Some v) as Hlast.
  { by rewrite <- head_reverse, Hrev. }
  assert (day_or0 v ∈ D) as HvD.
  { apply Hmrev. by left. }
  assert (∀ d, d ∈ D → d ≤ day_or0 v)%Z as Hmax.
  { intros d Hd. apply Hmrev in Hd.
    change (days_of (v :: rest)) with (day_or0 v :: days_of rest) in Hd, Hsrev.
    apply StronglySorted_inv in Hsrev as [_ Hbelow].
    apply elem_of_cons in Hd as [->|Hd]; [lia|].
    rewrite Forall_forall in Hbelow. specialize (Hbelow d Hd). unfold flip in Hbelow. lia. }
  rewrite (latest_day_is D (day_or0 v) HvD Hmax).
  pose proof (today_among L today Hc ltac:(lia) Hgood) as Htoday.
  pose proof (last_is_yesterday L today Hc ltac:(lia) Hgood) as Hyest.
  fold T in Htoday, Hyest.
  assert (last (days_of L) = Some (day_or0 v)) as Hlastd.
  { unfold days_of. by rewrite fmap_last, Hlast. }
  rewrite Hlastd in Hyest. rewrite Hmem in Htoday.
  destruct (includes (Some <$> L) (Some (VStr (local_date_string today)))) eqn:Einc.
  - rewrite decide_True by (left; by apply Htoday). exact Hrun.
  - assert (T ∉ D) as HT.
    { intros Hin. apply Htoday in Hin. done. }
    cbn [negb andb].
    destruct (strict_eq (last L) (Some (VStr (local_date_string (day_before today)))))
      eqn:Eyest.
    + rewrite decide_True; [exact Hrun|]. right.
      assert (Some (day_or0 v) = Some (T - 1)%Z) as [= ->] by (by apply Hyest). done.
    + rewrite decide_False; [done|]. intros [Hin|Heq]; [done|].
      assert (false = true) as Habs; [|done].
      apply Hyest. by rewrite Heq.
Qed.

End Streak.

(** Without matching data the three functions return their zero: no streak,
    no counts, and the number [0] as average. *)
Lemma analytics_without_data (today : Z * Z * Z) (now offsetNow offsetThen : Z)
    (acts : list Obj) (actionId : string) :
  (List.filter (Analytics.streak_match actionId) acts = [] →
     Analytics.calculateActionStreak today acts actionId = 0%Z)
  ∧ Analytics.getActivityCountsLast30Days now offsetNow offsetThen [] = ∅
  ∧ (List.filter (λ a, prop_is "actionId" "work" a || prop_is "type" "work" a) acts = [] →
       Analytics.calculateAverageWorkHours acts = Returned Analytics.Zero).
Proof.
  split; [|split].
  - intros Hnone. unfold Analytics.calculateActionStreak, Analytics.action_dates.
    rewrite Hnone. cbn. by destruct (length acts =? 0)%nat.
  - reflexivity.
  - intros Hnone. unfold Analytics.calculateAverageWorkHours. by rewrite Hnone.
Qed.




(** * Further properties of the synchronous store *)

Section SyncFurther.

Import SyncStorage.

Lemma sublist_filter_bool {A} (p : A → bool) (l : list A) :
  List.filter p l `sublist_of` l.
Proof.
  induction l as [|x l IH]; [constructor|]. cbn.
  destruct (p x); [by apply sublist_skip|by apply sublist_cons].
Qed.

Lemma migrateOne_idempotent (a : Obj) : migrateOne (migrateOne a) = migrateOne a.
Proof.
  unfold migrateOne at 2 3.
  destruct (truthy (a !! "actionId")) eqn:Et.
  { unfold migrateOne. by rewrite Et. }
  destruct (prop_is "type" "exercise" a) eqn:E1.
  { unfold migrateOne. rewrite lookup_insert_eq. reflexivity. }
  destruct (prop_is "type" "diet" a) eqn:E2.
  { unfold migrateOne. rewrite lookup_insert_eq.
    destruct (prop_is "foodQuality" "healthy" a); reflexivity. }
  destruct (prop_is "type" "work" a) eqn:E3.
  { unfold migrateOne. rewrite lookup_insert_eq. reflexivity. }
  unfold migrateOne. by rewrite Et, E1, E2, E3.
Qed.

Lemma getActivities_save (l : list Obj) (st : Collections) :
  getActivities (saveActivities l st) = l.
Proof. reflexivity. Qed.

Lemma save_same_activities (l : list Obj) (st : Collections) :
  saveActivities l (saveActivities l st) = saveActivities l st.
Proof. reflexivity. Qed.

Lemma migrateData_cases (st : Collections) :
  migrateData st = st
  ∨ migrateData st = saveActivities (migrateOne <$> getActivities st) st.
Proof. unfold migrateData. destruct (existsb _ _); auto. Qed.

(** X1: running the migration a second time changes nothing. *)
Theorem migrateData_idempotent (st : Collections) :
  migrateData (migrateData st) = migrateData st.
Proof.
  destruct (migrateData_cases st) as [H|H]; rewrite H.
  - exact H.
  - set (st' := saveActivities _ st).
    destruct (migrateData_cases st') as [->| ->]; [done|].
    subst st'. unfold saveActivities, getActivities. cbn. f_equal. f_equal.
    rewrite <- list_fmap_compose. apply list_fmap_ext.
    intros _ a _. apply migrateOne_idempotent.
Qed.

(** X2: the migration keeps the number and the order of the activities and
    every property other than [actionId]; a record that has a truthy
    [actionId] stays as it is, and a legacy record of type exercise, work or
    diet receives the action id of its type (for diet, by [foodQuality]). *)
Theorem migrateData_records (st : Collections) (i : nat) (a : Obj) :
  getActivities st !! i = Some a →
  ∃ a',
    getActivities (migrateData st) !! i = Some a'
    ∧ length (getActivities (migrateData st)) = length (getActivities st)
    ∧ (∀ k, k ≠ "actionId" → a' !! k = a !! k)
    ∧ (if truthy (a !! "actionId") then a' = a
       else match a !! "type" with
            | Some (VStr "exercise") => a' !! "actionId" = Some (VStr "exercise")
            | Some (VStr "work") => a' !! "actionId" = Some (VStr "work")
            | Some (VStr "diet") =>
                a' !! "actionId"
                = Some (VStr (if decide (a !! "foodQuality" = Some (VStr "healthy"))
                              then "diet-healthy" else "diet-unhealthy"))
            | _ => a' = a
            end).
Proof.
  intros Hi.
  assert (getActivities (migrateData st) !! i = Some (migrateOne a)
          ∧ length (getActivities (migrateData st)) = length (getActivities st))
    as [Hlook Hlen].
  { unfold migrateData. destruct (existsb _ (getActivities st)) eqn:E.
    - cbn [getActivities saveActivities activities default from_option id].
      rewrite list_lookup_fmap, length_fmap. fold (getActivities st).
      by rewrite Hi.
    - split; [|done]. rewrite Hi. f_equal.
      assert (truthy (a !! "actionId") = true) as Ht.
      { destruct (truthy (a !! "actionId")) eqn:Et; [done|].
        assert (existsb (λ a, negb (truthy (a !! "actionId"))) (getActivities st) = true)
          as Hex; [|by rewrite Hex in E].
        apply existsb_exists. exists a. split; [|by rewrite Et].
        apply list_elem_of_In. by eapply list_elem_of_lookup_2. }
      unfold migrateOne. by rewrite Ht. }
  exists (migrateOne a). split; [done|]. split; [done|]. split.
  - intros k Hk. apply not_eq_sym in Hk. unfold migrateOne.
    repeat case_match; try done; by rewrite lookup_insert_ne.
  - unfold migrateOne. destruct (truthy (a !! "actionId")); [done|].
    unfold prop_is. destruct (a !! "type") as [[| | |s|]|] eqn:Ety;
      rewrite ?bool_decide_eq_false_2 by done; try done.
    destruct (decide (s = "exercise")) as [->|Hne1].
    { rewrite bool_decide_eq_true_2 by done. by rewrite lookup_insert_eq. }
    rewrite (bool_decide_eq_false_2 (Some (VStr s) = Some (VStr "exercise")))
      by congruence.
    destruct (decide (s = "diet")) as [->|Hne2].
    { rewrite bool_decide_eq_true_2 by done. rewrite lookup_insert_eq.
      by destruct (decide (a !! "foodQuality" = Some (VStr "healthy")));
        [rewrite bool_decide_eq_true_2|rewrite bool_decide_eq_false_2]. }
    rewrite (bool_decide_eq_false_2 (Some (VStr s) = Some (VStr "diet"))) by congruence.
    destruct (decide (s = "work")) as [->|Hne3].
    { rewrite bool_decide_eq_true_2 by done. by rewrite lookup_insert_eq. }
    rewrite (bool_decide_eq_false_2 (Some (VStr s) = Some (VStr "work"))) by congruence.
    repeat case_match; done.
Qed.

Lemma migrateData_records_witness :
  let a : Obj := <["type" := VStr "diet"]> (<["foodQuality" := VStr "healthy"]> ∅) in
  let st := {| activities := Some [a]; actions := None |} in
  getActivities st !! 0%nat = Some a
  ∧ ∃ a', getActivities (migrateData st) !! 0%nat = Some a'
          ∧ a' !! "actionId" = Some (VStr "diet-healthy").
Proof.
  intros a st. split; [reflexivity|].
  destruct (migrateData_records st 0 a eq_refl) as (a' & H1 & _ & _ & H4).
  exists a'. split; [exact H1|exact H4].
Defined.

(** X3: importing, in replace mode, what [exportData] has just returned
    succeeds and leaves both collections reading as before. *)
Theorem export_import_replace (isoNow : string) (st : Collections) :
  let e := (exportData isoNow st).1 in
  let r := importData (Some (exported e)) true (exportData isoNow st).2 in
  version e = "1.0"
  ∧ r.1 = true
  ∧ getActivities r.2 = getActivities st
  ∧ (getActions r.2).1 = (getActions st).1.
Proof.
  unfold exportData, getActions. destruct (actions st); by cbn.
Qed.

Lemma filter_keeps_other_ids (id : string) (l : list Obj) :
  Some (VStr id) ∉ ids l → without_id id l = l.
Proof.
  unfold without_id, ids. induction l as [|a l IH]; intros Hout; [done|].
  rewrite fmap_cons, not_elem_of_cons in Hout. destruct Hout as [Ha Hl].
  rewrite filter_cons_True by congruence. by rewrite IH.
Qed.

Lemma added_activity_id (t_id t_ts : Z) (draft : Obj) :
  let new : Obj := <["timestamp" := VNum t_ts]> (<["id" := VStr (pretty t_id)]> draft) in
  new !! "id" = Some (VStr (pretty t_id)).
Proof. cbv zeta. rewrite lookup_insert_ne by done. apply lookup_insert_eq. Qed.

(** X4: deleting the activity that [addActivity] has just stored, by the id
    it was given, brings back the former list, provided that id was not in
    use. *)
Theorem addActivity_deleteActivity (t_id t_ts : Z) (draft : Obj) (st : Collections) :
  Some (VStr (pretty t_id)) ∉ ids (getActivities st) →
  getActivities (deleteActivity (pretty t_id) (addActivity t_id t_ts draft st).2)
  = getActivities st.
Proof.
  intros Hfresh. unfold deleteActivity, addActivity.
  cbn [snd getActivities saveActivities activities default from_option id].
  fold (getActivities st). rewrite filter_not_id. unfold without_id.
  rewrite filter_app. fold (without_id (pretty t_id) (getActivities st)).
  rewrite filter_keeps_other_ids by done.
  rewrite filter_cons_False, filter_nil, app_nil_r; [done|].
  intros Hne. apply Hne, added_activity_id.
Qed.

Lemma addActivity_deleteActivity_witness :
  let st := AsyncStorage.cache cloud_one_habit in
  (Some (VStr (pretty 1717570000001)) ∉ ids (getActivities st))
  ∧ getActivities (deleteActivity (pretty 1717570000001)
                     (addActivity 1717570000001 1717570000002 ∅ st).2)
    = getActivities st.
Proof.
  intros st.
  assert (Some (VStr (pretty 1717570000001)) ∉ ids (getActivities st)) as H.
  { apply (bool_decide_unpack _). vm_compute. reflexivity. }
  split; [exact H|]. exact (addActivity_deleteActivity _ _ ∅ st H).
Defined.

(** X5: [addActivity] appends one record; its [id] and [timestamp] come from
    the clock whatever the draft holds, its other properties are the
    draft's; the views by action and by date gain that record exactly when
    the draft has that action id or that date. *)
Theorem addActivity_lookup (t_id t_ts : Z) (draft : Obj) (st : Collections)
    (key : string) :
  let new := (addActivity t_id t_ts draft st).1 in
  let st' := (addActivity t_id t_ts draft st).2 in
  new !! "id" = Some (VStr (pretty t_id))
  ∧ new !! "timestamp" = Some (VNum t_ts)
  ∧ (∀ k, k ≠ "id" → k ≠ "timestamp" → new !! k = draft !! k)
  ∧ getActivities st' = getActivities st ++ [new]
  ∧ actions st' = actions st
  ∧ getActivitiesByActionId key st'
    = getActivitiesByActionId key st
      ++ (if decide (draft !! "actionId" = Some (VStr key)) then [new] else [])
  ∧ getActivitiesByDate key st'
    = getActivitiesByDate key st
      ++ (if decide (draft !! "date" = Some (VStr key)) then [new] else []).
Proof.
  cbn [addActivity fst snd].
  set (new := <["timestamp" := VNum t_ts]> (<["id" := VStr (pretty t_id)]> draft)).
  assert (∀ k, k ≠ "id" → k ≠ "timestamp" → new !! k = draft !! k) as Hother.
  { intros k H1 H2. unfold new. by rewrite !lookup_insert_ne by congruence. }
  split; [apply added_activity_id|]. split; [apply lookup_insert_eq|].
  split; [exact Hother|]. split; [done|]. split; [done|].
  unfold getActivitiesByActionId, getActivitiesByDate.
  cbn [getActivities saveActivities activities default from_option id].
  fold (getActivities st). rewrite !List.filter_app. cbn [List.filter].
  unfold prop_is. rewrite !Hother by done.
  split; f_equal; case_decide;
    by rewrite ?bool_decide_eq_true_2, ?bool_decide_eq_false_2 by done.
Qed.

(** X6: once an activity that refers to an action (by [actionId] or by a
    legacy [type]) has been added, [deleteAction] of that action is refused
    and changes nothing. *)
Theorem deleteAction_refused_after_addActivity (a : string) (t_id t_ts : Z)
    (draft : Obj) (st : Collections) :
  references a draft →
  let st' := (addActivity t_id t_ts draft st).2 in
  deleteAction a st' = (false, st').
Proof.
  intros Href st'. unfold deleteAction.
  assert (existsb (λ x, prop_is "actionId" a x || prop_is "type" a x)
            (getActivities st') = true) as ->; [|done].
  apply existsb_references. subst st'. cbn.
  apply Exists_app. right. apply Exists_cons_hd.
  unfold references in *. by rewrite !lookup_insert_ne by done.
Qed.

Lemma deleteAction_refused_after_addActivity_witness :
  let draft : Obj := <["actionId" := VStr "work"]> (<["date" := VStr "2024-06-05"]> ∅) in
  let st' := (addActivity 1717570000001 1717570000002 draft noCollections).2 in
  references "work" draft ∧ deleteAction "work" st' = (false, st').
Proof.
  intros draft st'.
  assert (references "work" draft) as H by (left; reflexivity).
  split; [exact H|].
  exact (deleteAction_refused_after_addActivity "work" _ _ draft noCollections H).
Defined.

Lemma getActions_after (st : Collections) :
  activities (getActions st).2 = activities st
  ∧ actions (getActions st).2 = Some (getActions st).1.
Proof. unfold getActions. by destruct (actions st) eqn:E. Qed.

Lemma without_id_twice (id : string) (l : list Obj) :
  without_id id (without_id id l) = without_id id l.
Proof.
  unfold without_id. induction l as [|a l IH]; [done|].
  rewrite filter_cons. case_decide; [|done].
  by rewrite filter_cons_True, IH.
Qed.

Lemma deleteAction_result (id : string) (st : Collections) :
  deleteAction id st
  = if existsb (λ a, prop_is "actionId" id a || prop_is "type" id a) (getActivities st)
    then (false, st)
    else (true, {| activities := activities st;
                   actions := Some (without_id id (getActions st).1) |}).
Proof.
  unfold deleteAction. destruct (existsb _ _); [done|].
  destruct (getActions_after st) as [Hacts Hcat].
  destruct (getActions st) as [catalog st1]. cbn [fst snd] in *.
  rewrite filter_not_id. unfold saveActions. by rewrite Hacts.
Qed.

(** X7: a [deleteAction] that went through leaves no action with that id,
    and asking again succeeds and changes nothing more; a refused one leaves
    the store as it was. *)
Theorem deleteAction_twice (id : string) (st : Collections) :
  let r := deleteAction id st in
  if r.1
  then deleteAction id r.2 = (true, r.2)
       ∧ Forall (λ a : Obj, a !! "id" ≠ Some (VStr id)) (getActions r.2).1
  else r.2 = st.
Proof.
  cbv zeta. rewrite (deleteAction_result id st).
  destruct (existsb _ (getActivities st)) eqn:E; [done|].
  cbn [fst snd]. split.
  - rewrite deleteAction_result. unfold getActivities at 1. cbn [activities].
    fold (getActivities st). rewrite E. unfold getActions at 1.
    cbn [actions fst]. by rewrite without_id_twice.
  - unfold getActions at 1. cbn. unfold without_id.
    apply Forall_forall. intros a Ha. by apply list_elem_of_filter in Ha as [? _].
Qed.

(** X8: [updateActivity] never changes the number, the order or the ids of
    the activities, nor the catalog; it returns [null] and stores nothing
    when no activity has the id, and it leaves alone every record whose id
    is another one. *)
Theorem updateActivity_frame (id : string) (patch : Obj) (st : Collections) :
  let r := updateActivity id patch st in
  length (getActivities r.2) = length (getActivities st)
  ∧ ids (getActivities r.2) = ids (getActivities st)
  ∧ actions r.2 = actions st
  ∧ (Forall (λ a : Obj, a !! "id" ≠ Some (VStr id)) (getActivities st) →
       r = (None, st))
  ∧ (∀ j a, getActivities st !! j = Some a → a !! "id" ≠ Some (VStr id) →
       getActivities r.2 !! j = Some a).
Proof.
  unfold updateActivity.
  destruct (findIndex _ _) as [[i orig]|] eqn:Hfind.
  - apply list_find_Some in Hfind as (Hi & Hid%prop_is_true & _).
    cbn [fst snd]. rewrite getActivities_save.
    split; [by rewrite length_insert|]. split.
    { erewrite ids_insert_same; [done|exact Hi|apply pin_id_lookup]. }
    split; [done|]. split.
    { intros Hall. rewrite Forall_forall in Hall.
      exfalso. apply (Hall orig); [|done]. by eapply list_elem_of_lookup_2. }
    intros j a Hj Hne. rewrite list_lookup_insert_ne; [done|].
    intros <-. rewrite Hi in Hj. injection Hj as <-. done.
  - cbn [fst snd]. repeat split; done.
Qed.

(** X9: [updateAction] of the synchronous store returns and stores the
    original with the patch over it on every property, [id] included, so a
    patch that holds an [id] renames the action; the other actions, the
    length of the catalog and the activities stay as they are, and nothing
    is found for an unknown id. *)
Theorem updateAction_sync_merge (id : string) (patch : Obj) (st : Collections) :
  let catalog := (getActions st).1 in
  let r := updateAction id patch st in
  activities r.2 = activities st
  ∧ length (getActions r.2).1 = length catalog
  ∧ match findIndex (prop_is "id" id) catalog with
    | Some (i, orig) =>
        ∃ m, r.1 = Some m
             ∧ (getActions r.2).1 !! i = Some m
             ∧ (∀ k, m !! k = match patch !! k with
                               | Some v => Some v
                               | None => orig !! k
                               end)
             ∧ (∀ j, j ≠ i → (getActions r.2).1 !! j = catalog !! j)
    | None => r.1 = None ∧ (getActions r.2).1 = catalog
    end.
Proof.
  unfold updateAction. destruct (getActions_after st) as [Hacts Hcat].
  destruct (getActions st) as [catalog st1]. cbn [fst snd] in *.
  destruct (findIndex _ _) as [[i orig]|] eqn:Hfind.
  - apply list_find_Some in Hfind as (Hi & _ & _).
    cbn [fst snd]. unfold getActions, saveActions. cbn.
    split; [done|]. split; [by rewrite length_insert|].
    eexists. split; [done|]. split.
    { apply list_lookup_insert_eq. by eapply lookup_lt_Some. }
    split.
    { intros k. unfold spread. rewrite lookup_union.
      destruct (patch !! k), (orig !! k); done. }
    intros j Hj. by rewrite list_lookup_insert_ne.
  - cbn [fst snd]. unfold getActions. rewrite Hcat. cbn. done.
Qed.

(** X10: a merge import never loses or alters local data: the stored
    activities and actions stay, in order, at the front of the collections,
    and whatever follows comes from the payload. *)
Theorem importData_merge_keeps_local (inActivities inActions : list Obj)
    (st : Collections) :
  let r := importData
             (Some {| activities := Some inActivities; actions := Some inActions |})
             false st in
  r.1 = true
  ∧ (∃ added, getActivities r.2 = getActivities st ++ added
              ∧ added `sublist_of` inActivities)
  ∧ (∃ added, (getActions r.2).1 = (getActions st).1 ++ added
              ∧ added `sublist_of` inActions).
Proof.
  unfold importData. destruct (getActions_after st) as [Hacts Hcat].
  destruct (getActions st) as [catalog st1]. cbn [fst snd] in *.
  split; [done|]. split.
  - eexists. split; [reflexivity|]. apply sublist_filter_bool.
  - eexists. split; [unfold getActions; cbn; reflexivity|]. apply sublist_filter_bool.
Qed.

Lemma fresh_records_self (l : list Obj) : fresh_records l l = [].
Proof.
  unfold fresh_records. apply filter_none. intros a Ha Hout. apply Hout.
  unfold ids. apply list_elem_of_fmap. by exists a.
Qed.

(** X11: importing one's own export in merge mode adds nothing, when the
    stored ids are not arrays. *)
Theorem export_import_merge (isoNow : string) (st : Collections) :
  Forall scalar_id (getActivities st) →
  Forall scalar_id (getActions st).1 →
  let e := (exportData isoNow st).1 in
  let r := importData (Some (exported e)) false (exportData isoNow st).2 in
  r.1 = true
  ∧ getActivities r.2 = getActivities st
  ∧ (getActions r.2).1 = (getActions st).1.
Proof.
  intros H1 H2. unfold exportData.
  destruct (getActions_after st) as [Hacts Hcat].
  destruct (getActions st) as [catalog st1] eqn:Hget. cbn [fst snd exported] in *.
  assert (getActivities st1 = getActivities st) as Hsame.
  { unfold getActivities. by rewrite Hacts. }
  assert ((getActions st1).1 = catalog) as Hsame2.
  { unfold getActions. by rewrite Hcat. }
  rewrite importData_merge_result by done.
  rewrite Hsame, Hsame2, !fresh_records_self, !app_nil_r.
  by cbn.
Qed.

Lemma export_import_merge_witness :
  let st := AsyncStorage.cache cloud_one_habit in
  Forall scalar_id (getActivities st)
  ∧ Forall scalar_id (getActions st).1
  ∧ getActivities
      (importData (Some (exported (exportData "2024-06-05T10:00:00.000Z" st).1)) false
         (exportData "2024-06-05T10:00:00.000Z" st).2).2
    = getActivities st.
Proof.
  intros st.
  assert (Forall scalar_id (getActivities st)) as H1 by (repeat constructor).
  assert (Forall scalar_id (getActions st).1) as H2 by (repeat constructor).
  split; [exact H1|]. split; [exact H2|].
  exact (proj1 (proj2 (export_import_merge "2024-06-05T10:00:00.000Z" st H1 H2))).
Defined.

End SyncFurther.

(** * Further properties of the asynchronous store *)

Section AsyncFurther.

Import AsyncStorage.

Lemma async_read_signed_out (st : Cloud) :
  async_activities (sign_out st) = default [] (activities (cache st))
  ∧ async_actions (sign_out st) = default [] (actions (cache st)).
Proof. by split. Qed.

Lemma persist_cache (data : Collections) (st : Cloud) :
  cache (persist data st).2 = setDoc_merge data (Some (cache st))
  ∧ user (persist data st).2 = user st
  ∧ doc (persist data st).2
    = if user st then Some (setDoc_merge data (doc st)) else doc st.
Proof. by split. Qed.

Lemma importData_persists (incoming : list Obj) (inActions : option (list Obj))
    (merge : bool) (st : Cloud) :
  importData (Some {| activities := Some incoming; actions := inActions |}) merge st
  = (Returned true,
     (persist {| activities := Some ((if merge then async_activities st else [])
                                     ++ incoming);
                 actions := Some (default (if merge then async_actions st else [])
                                    inActions) |} st).2).
Proof. by destruct merge. Qed.

Lemma persisted_activities_mirrored (l : list Obj) (o : option (list Obj)) (st : Cloud) :
  async_activities (sign_out (persist {| activities := Some l; actions := o |} st).2) = l
  ∧ async_activities (persist {| activities := Some l; actions := o |} st).2 = l.
Proof. destruct st as [u d c]. unfold async_activities. cbn. by destruct u. Qed.

Lemma persisted_actions_mirrored (l : list Obj) (o : option (list Obj)) (st : Cloud) :
  async_actions (sign_out (persist {| activities := o; actions := Some l |} st).2) = l
  ∧ async_actions (persist {| activities := o; actions := Some l |} st).2 = l.
Proof. destruct st as [u d c]. unfold async_actions. cbn. by destruct u. Qed.

(** X12: what an operation writes is mirrored in [localStorage]: after
    [addActivity], [deleteActivity], [clearAllData] and an import the
    activities read the same signed out as signed in, and so does the
    catalog after [addAction], [deleteAction], [clearAllData] and an
    import. *)
Theorem writes_are_mirrored (st : Cloud) (t_id t_ts : Z) (draft : Obj) (id : string)
    (incoming : list Obj) (inActions : option (list Obj)) (merge : bool) :
  let payload := Some {| activities := Some incoming; actions := inActions |} in
  let same_activities st' := async_activities (sign_out st') = async_activities st' in
  let same_actions st' := async_actions (sign_out st') = async_actions st' in
  same_activities (addActivity t_id t_ts draft st).2
  ∧ same_activities (deleteActivity id st).2
  ∧ same_activities (clearAllData st).2
  ∧ same_activities (importData payload merge st).2
  ∧ same_actions (addAction t_id draft st).2
  ∧ same_actions (deleteAction id st).2
  ∧ same_actions (clearAllData st).2
  ∧ same_actions (importData payload merge st).2.
Proof.
  cbv zeta. rewrite importData_persists. cbn [snd].
  repeat split;
    first [ (etrans; [apply persisted_activities_mirrored|];
             symmetry; apply persisted_activities_mirrored)
          | (etrans; [apply persisted_actions_mirrored|];
             symmetry; apply persisted_actions_mirrored) ].
Qed.

(** X13: while no user is signed in no operation touches the user document,
    and no operation ever changes who is signed in. *)
Theorem signed_out_keeps_document (d : option Collections) (c : Collections)
    (t_id t_ts : Z) (draft patch : Obj) (id : string)
    (payload : option Collections) (merge : bool) :
  let st := {| user := false; doc := d; cache := c |} in
  let untouched (st' : Cloud) := doc st' = d ∧ user st' = false in
  untouched (addActivity t_id t_ts draft st).2
  ∧ untouched (deleteActivity id st).2
  ∧ untouched (updateActivity id patch st).2
  ∧ untouched (addAction t_id draft st).2
  ∧ untouched (deleteAction id st).2
  ∧ untouched (updateAction id patch st).2
  ∧ untouched (importData payload merge st).2
  ∧ untouched (clearAllData st).2
  ∧ untouched (exportData st).2.
Proof.
  cbv zeta. repeat split; try done.
  - unfold updateActivity, bind. cbn [getActivities user].
    by destruct (findIndex _ _) as [[i o]|].
  - unfold updateActivity, bind. cbn [getActivities user].
    by destruct (findIndex _ _) as [[i o]|].
  - unfold updateAction, bind. cbn [getActions user].
    by destruct (findIndex _ _) as [[i o]|].
  - unfold updateAction, bind. cbn [getActions user].
    by destruct (findIndex _ _) as [[i o]|].
  - destruct payload as [[[l|] o]|], merge; done.
  - destruct payload as [[[l|] o]|], merge; done.
Qed.

Lemma addActivity_async_result (t_id t_ts : Z) (draft : Obj) (st : Cloud) :
  addActivity t_id t_ts draft st
  = (Returned (<["timestamp" := VNum t_ts]> (<["id" := VStr (pretty t_id)]> draft)),
     (persist {| activities :=
                   Some (async_activities st
                         ++ [<["timestamp" := VNum t_ts]>
                               (<["id" := VStr (pretty t_id)]> draft)]);
                 actions := None |} st).2).
Proof. reflexivity. Qed.

Lemma deleteActivity_async_result (id : string) (st : Cloud) :
  (deleteActivity id st).2
  = (persist {| activities := Some (without_id id (async_activities st));
                actions := None |} st).2.
Proof. rewrite <- filter_not_id. reflexivity. Qed.

(** X14: in the asynchronous store too, deleting the activity just added, by
    the id it was given, brings back the former list when that id was not in
    use; the catalog is not touched. *)
Theorem addActivity_deleteActivity_async (t_id t_ts : Z) (draft : Obj) (st : Cloud) :
  Some (VStr (pretty t_id)) ∉ ids (async_activities st) →
  let st' := (deleteActivity (pretty t_id) (addActivity t_id t_ts draft st).2).2 in
  async_activities st' = async_activities st
  ∧ async_actions st' = async_actions st.
Proof.
  intros Hfresh st'. subst st'.
  rewrite deleteActivity_async_result, addActivity_async_result. cbn [snd].
  destruct (async_persist_activities
              (async_activities st
               ++ [<["timestamp" := VNum t_ts]> (<["id" := VStr (pretty t_id)]> draft)])
              st) as [Hread Hcat].
  rewrite Hread.
  match goal with |- context [persist ?d ?s] =>
    destruct (async_persist_activities
                (without_id (pretty t_id)
                   (async_activities st
                    ++ [<["timestamp" := VNum t_ts]>
                          (<["id" := VStr (pretty t_id)]> draft)])) s) as [Hread2 Hcat2]
  end.
  rewrite Hread2, Hcat2, Hcat. split; [|done].
  unfold without_id. rewrite filter_app.
  fold (without_id (pretty t_id) (async_activities st)).
  rewrite filter_keeps_other_ids by done.
  rewrite filter_cons_False, filter_nil, app_nil_r; [done|].
  intros Hne. apply Hne, added_activity_id.
Qed.

Lemma addActivity_deleteActivity_async_witness :
  (Some (VStr (pretty 1717570000001)) ∉ ids (async_activities cloud_one_habit))
  ∧ async_activities
      (deleteActivity (pretty 1717570000001)
         (addActivity 1717570000001 1717570000002 ∅ cloud_one_habit).2).2
    = async_activities cloud_one_habit.
Proof.
  assert (Some (VStr (pretty 1717570000001)) ∉ ids (async_activities cloud_one_habit))
    as H.
  { apply (bool_decide_unpack _). vm_compute. reflexivity. }
  split; [exact H|].
  exact (proj1 (addActivity_deleteActivity_async _ _ ∅ cloud_one_habit H)).
Defined.

(** X15: [addAction] of the asynchronous store gives the action an id made
    from the clock even when the draft brings one, keeps the draft's other
    properties, appends the action to the catalog and leaves the activities
    alone. *)
Theorem addAction_async_overrides_id (now : Z) (draft : Obj) (st : Cloud) :
  ∃ new,
    (addAction now draft st).1 = Returned new
    ∧ new !! "id" = Some (VStr (pretty now))
    ∧ (∀ k, k ≠ "id" → new !! k = draft !! k)
    ∧ async_actions (addAction now draft st).2 = async_actions st ++ [new]
    ∧ async_activities (addAction now draft st).2 = async_activities st.
Proof.
  exists (<["id" := VStr (pretty now)]> draft).
  split; [reflexivity|]. split; [apply lookup_insert_eq|]. split.
  - intros k Hk. by rewrite lookup_insert_ne.
  - apply (async_persist_actions
             (async_actions st ++ [<["id" := VStr (pretty now)]> draft]) st).
Qed.

(** X16: importing what [exportData] has just serialised leaves both
    collections reading as before in replace mode; in merge mode it leaves
    the catalog as before and stores every activity a second time. *)
Theorem export_import_async (st : Cloud) :
  ∃ e,
    exportData st = (Returned e, st)
    ∧ (let r := importData (Some e) false st in
       r.1 = Returned true
       ∧ async_activities r.2 = async_activities st
       ∧ async_actions r.2 = async_actions st)
    ∧ (let r := importData (Some e) true st in
       r.1 = Returned true
       ∧ async_activities r.2 = async_activities st ++ async_activities st
       ∧ async_actions r.2 = async_actions st).
Proof.
  exists {| activities := Some (async_activities st);
            actions := Some (async_actions st) |}.
  split; [reflexivity|]. rewrite !importData_persists. cbn [fst snd default from_option].
  split; (split; [done|]); apply async_persist_both.
Qed.

Lemma ids_insert_pinned (l : list Obj) (i : nat) (orig m : Obj) (id : string) :
  l !! i = Some orig → orig !! "id" = Some (VStr id) →
  ids (<[i := <["id" := VStr id]> m]> l) = ids l.
Proof.
  intros Hi Hid. eapply ids_insert_same; [exact Hi|].
  by rewrite lookup_insert_eq, Hid.
Qed.

(** X17: the updates of the asynchronous store keep the ids, the number and
    the order of the records whatever the patch holds, and do not touch the
    other collection. *)
Theorem async_updates_keep_ids (id : string) (patch : Obj) (st : Cloud) :
  (ids (async_activities (updateActivity id patch st).2) = ids (async_activities st)
   ∧ async_actions (updateActivity id patch st).2 = async_actions st)
  ∧ (ids (async_actions (updateAction id patch st).2) = ids (async_actions st)
     ∧ async_activities (updateAction id patch st).2 = async_activities st).
Proof.
  split.
  - unfold updateActivity, bind. cbn [getActivities].
    fold (async_activities st) in *.
    change (if user st then _ else _) with (async_activities st).
    destruct (findIndex _ _) as [[i orig]|] eqn:Hfind; [|done].
    apply list_find_Some in Hfind as (Hi & Hid%prop_is_true & _).
    match goal with |- context [persist {| activities := Some ?l; actions := None |} st] =>
      destruct (async_persist_activities l st) as [-> ->] end.
    split; [|done]. by eapply ids_insert_pinned.
  - unfold updateAction, bind. cbn [getActions].
    change (if user st then _ else _) with (async_actions st).
    destruct (findIndex _ _) as [[i orig]|] eqn:Hfind; [|done].
    apply list_find_Some in Hfind as (Hi & Hid%prop_is_true & _).
    match goal with |- context [persist {| activities := None; actions := Some ?l |} st] =>
      destruct (async_persist_actions l st) as [-> ->] end.
    split; [|done]. by eapply ids_insert_pinned.
Qed.

End AsyncFurther.

(** * Further properties of the analytics *)

Section StreakFurther.

Import Analytics.

Lemma length_filter_bool {A} (p : A → bool) (l : list A) :
  (length (List.filter p l) ≤ length l)%nat.
Proof. induction l as [|x l IH]; cbn; [done|]. destruct (p x); cbn; lia. Qed.

Lemma length_omap_le {A B} (f : A → option B) (l : list A) :
  (length (omap f l) ≤ length l)%nat.
Proof. induction l as [|x l IH]; cbn; [done|]. destruct (f x); cbn; lia. Qed.

Lemma length_set_of_acc (l acc : list JVal) :
  (length (foldl (λ acc v, if includes (Some <$> acc) (Some v) then acc else acc ++ [v])
             acc l) ≤ length acc + length l)%nat.
Proof.
  revert acc. induction l as [|v l IH]; intros acc; cbn [foldl]; [cbn; lia|].
  destruct (includes _ _).
  - specialize (IH acc). cbn. lia.
  - specialize (IH (acc ++ [v])). rewrite length_app in IH. cbn in *. lia.
Qed.

Lemma length_action_dates (acts : list Obj) (actionId : string) :
  (length (action_dates acts actionId)
   ≤ length (List.filter (streak_match actionId) acts))%nat.
Proof.
  unfold action_dates. rewrite (Permutation_length (sort_perm _)).
  etrans; [apply (length_set_of_acc _ [])|]. cbn. apply length_omap_le.
Qed.

Lemma count_consecutive_bound (l : list JVal) :
  (0 ≤ count_consecutive l ≤ Z.of_nat (pred (length l)))%Z.
Proof.
  induction l as [|v l IH]; [cbn; lia|].
  destruct l as [|w l]; [cbn; lia|].
  rewrite count_consecutive_step.
  destruct (date_time v), (date_time w); try (cbn; lia).
  destruct (_ =? 1)%Z; cbn [length pred] in *; lia.
Qed.

(** X18: the streak is never negative and never more than the number of
    activities that match the action, whatever the dates hold. *)
Theorem calculateActionStreak_bounds (today : Z * Z * Z) (acts : list Obj)
    (actionId : string) :
  (0 ≤ calculateActionStreak today acts actionId
     ≤ Z.of_nat (length (List.filter (streak_match actionId) acts)))%Z.
Proof.
  unfold calculateActionStreak.
  destruct (length acts =? 0)%nat; [lia|].
  pose proof (length_action_dates acts actionId) as Hlen.
  set (L := action_dates acts actionId) in *.
  destruct (length L =? 0)%nat eqn:EL; [lia|].
  destruct (_ && _); [lia|].
  pose proof (count_consecutive_bound (reverse L)) as Hc.
  rewrite length_reverse in Hc. apply Nat.eqb_neq in EL. lia.
Qed.

Lemma run_ending_unique (latest n n' : Z) (D : list Z) :
  run_ending latest D n → run_ending latest D n' → n = n'.
Proof.
  intros (Hn & Hrun & Hend) (Hn' & Hrun' & Hend').
  destruct (Z.lt_trichotomy n n') as [Hlt|[Heq|Hgt]]; [|done|].
  - exfalso. apply Hend, Hrun'. lia.
  - exfalso. apply Hend', Hrun. lia.
Qed.

(** X19: with well-formed dates, none after today, the streak depends only
    on which days have a matching activity: logging a day twice, or in
    another order, or under other records, gives the same streak. *)
Theorem calculateActionStreak_same_days (today : Z * Z * Z) (acts acts' : list Obj)
    (actionId actionId' : string) :
  valid_civil today → (1970 ≤ today.1.1 ≤ 9999)%Z →
  valid_dates acts → valid_dates acts' →
  Forall (λ d, d ≤ civil_day today)%Z (matching_days acts actionId) →
  (∀ d, d ∈ matching_days acts actionId ↔ d ∈ matching_days acts' actionId') →
  calculateActionStreak today acts actionId
  = calculateActionStreak today acts' actionId'.
Proof.
  intros Hc Hy Hv Hv' Hpast Hsame.
  assert (Forall (λ d, d ≤ civil_day today)%Z (matching_days acts' actionId')) as Hpast'.
  { rewrite Forall_forall in *. intros d Hd. by apply Hpast, Hsame. }
  pose proof (streak_spec today acts actionId Hc Hy Hv Hpast) as H1.
  pose proof (streak_spec today acts' actionId' Hc Hy Hv' Hpast') as H2.
  cbv zeta in H1, H2.
  destruct (decide (civil_day today ∈ matching_days acts actionId)) as [Hin|Hout].
  - rewrite decide_True in H2 by (by apply Hsame).
    apply (run_ending_ext _ _ _ _ Hsame) in H1.
    by eapply run_ending_unique.
  - rewrite decide_False in H2 by (by rewrite <- Hsame).
    destruct (decide ((civil_day today - 1)%Z ∈ matching_days acts actionId)) as [Hin|Hout'].
    + rewrite decide_True in H2 by (by apply Hsame).
      apply (run_ending_ext _ _ _ _ Hsame) in H1.
      by eapply run_ending_unique.
    + rewrite decide_False in H2 by (by rewrite <- Hsame). congruence.
Qed.

Lemma calculateActionStreak_same_days_witness :
  let today := (2024, 6, 5)%Z in
  let acts := [ activity_on "1" "run" "2024-06-04"; activity_on "2" "run" "2024-06-05" ] in
  let acts' := [ activity_on "7" "run" "2024-06-05"; activity_on "8" "walk" "2024-06-01";
                 activity_on "9" "run" "2024-06-04"; activity_on "10" "run" "2024-06-05" ] in
  valid_civil today
  ∧ (1970 ≤ today.1.1 ≤ 9999)%Z
  ∧ valid_dates acts ∧ valid_dates acts'
  ∧ Forall (λ d, d ≤ civil_day today)%Z (matching_days acts "run")
  ∧ (∀ d, d ∈ matching_days acts "run" ↔ d ∈ matching_days acts' "run")
  ∧ calculateActionStreak today acts "run" = calculateActionStreak today acts' "run".
Proof.
  intros today acts acts'.
  assert (valid_civil today) as H1 by (vm_compute; intuition discriminate).
  assert (1970 ≤ today.1.1 ≤ 9999)%Z as H2 by (cbn; lia).
  assert (valid_dates acts) as H3.
  { repeat constructor; intros _; eexists; vm_compute; reflexivity. }
  assert (valid_dates acts') as H4.
  { repeat constructor; intros _; eexists; vm_compute; reflexivity. }
  assert (Forall (λ d, d ≤ civil_day today)%Z (matching_days acts "run")) as H5.
  { apply (bool_decide_unpack _). vm_compute. reflexivity. }
  assert (∀ d, d ∈ matching_days acts "run" ↔ d ∈ matching_days acts' "run") as H6.
  { intros d.
    change (matching_days acts "run") with [19878; 19879]%Z.
    change (matching_days acts' "run") with [19879; 19878; 19879]%Z.
    rewrite !elem_of_cons, !elem_of_nil. tauto. }
  repeat (split; [assumption|]).
  exact (calculateActionStreak_same_days today acts acts' "run" "run" H1 H2 H3 H4 H5 H6).
Defined.

End StreakFurther.

Section AverageFurther.

Import Analytics.

Lemma work_filter (acts : list Obj) :
  List.filter (λ a, prop_is "actionId" "work" a || prop_is "type" "work" a) acts
  = work_activities acts.
Proof.
  unfold work_activities. induction acts as [|a l IH]; [done|].
  cbn [List.filter]. rewrite filter_cons, IH.
  destruct (prop_is "actionId" "work" a || prop_is "type" "work" a) eqn:E.
  - rewrite decide_True; [done|].
    apply orb_true_iff in E as [E|E]; apply prop_is_true in E; [by left|by right].
  - rewrite decide_False; [done|]. apply orb_false_iff in E as [E1 E2].
    apply prop_is_false in E1, E2. by intros [?|?].
Qed.

Lemma sum_work_minutes_returns (work : list Obj) (total : option Z) :
  Forall has_times work → ∃ t, sum_work_minutes work total = Returned t.
Proof.
  intros Hall. revert total. induction Hall as [|a l Ha _ IH]; intros total.
  - by eexists.
  - cbn [sum_work_minutes]. unfold has_times in Ha.
    destruct (a !! "startTime") as [[| | |s|]|]; try done.
    destruct (a !! "endTime") as [[| | |e|]|]; try done.
Qed.

(** X20: [calculateAverageWorkHours] raises exactly when some activity of
    the action work lacks a string [startTime] or a string [endTime]. *)
Theorem calculateAverageWorkHours_raises_iff (acts : list Obj) :
  calculateAverageWorkHours acts = Raised
  ↔ Exists (λ a, ¬ has_times a) (work_activities acts).
Proof.
  unfold calculateAverageWorkHours. rewrite work_filter.
  set (work := work_activities acts). split.
  - intros Hr. destruct (decide (Exists (λ a, ¬ has_times a) work)) as [|Hno]; [done|].
    exfalso. apply not_Exists_Forall in Hno; [|apply _].
    assert (Forall has_times work) as Hall.
    { eapply Forall_impl; [exact Hno|]. intros a Ha. cbn in Ha.
      by destruct (decide (has_times a)). }
    destruct (sum_work_minutes_returns work (Some 0%Z) Hall) as [t Ht].
    rewrite Ht in Hr. by destruct (length work =? 0)%nat.
  - intros Hex.
    assert (sum_work_minutes work (Some 0%Z) = Raised) as ->.
    { apply sum_work_minutes_raises. eapply Exists_impl; [exact Hex|].
      intros a Ha Hboth. apply Ha. unfold has_times.
      destruct Hboth as [[s ->] [e ->]]. done. }
    destruct work; [by apply Exists_nil in Hex|done].
Qed.

Lemma minutes_of_hhmm (t : Z) : (0 ≤ t < 1440)%Z → minutes_of (hhmm t) = Some t.
Proof.
  intros Ht.
  assert (Forall (λ t, minutes_of (hhmm t) = Some t) (seqZ 0 1440)) as Hall.
  { apply (bool_decide_unpack _). vm_compute. reflexivity. }
  rewrite Forall_forall in Hall. apply Hall, elem_of_seqZ. lia.
Qed.

Lemma shift_minutes_hhmm (a : Obj) (s e : Z) :
  (0 ≤ s < 1440)%Z → (0 ≤ e < 1440)%Z →
  a !! "startTime" = Some (VStr (hhmm s)) → a !! "endTime" = Some (VStr (hhmm e)) →
  shift_minutes a = ((e - s) mod 1440)%Z.
Proof.
  intros Hs He Hst Hen. unfold shift_minutes, minute_of_day.
  by rewrite Hst, Hen, !minutes_of_hhmm.
Qed.

Lemma sum_work_minutes_total (work : list Obj) (t0 : Z) :
  Forall hhmm_times work →
  sum_work_minutes work (Some t0) = Returned (Some (t0 + total_minutes work)%Z).
Proof.
  intros Hall. revert t0. induction Hall as [|a l Ha _ IH]; intros t0.
  - cbn. by rewrite Z.add_0_r.
  - destruct Ha as (s & e & Hs & He & Hst & Hen).
    change (total_minutes (a :: l)) with (shift_minutes a + total_minutes l)%Z.
    rewrite (shift_minutes_hhmm a s e) by done.
    cbn [sum_work_minutes]. rewrite Hst, Hen.
    rewrite !minutes_of_hhmm by done. cbn [mbind option_bind].
    rewrite IH. do 2 f_equal. generalize (total_minutes l). intros T.
    destruct (Z.ltb_spec e s); Z.div_mod_to_equations; lia.
Qed.

Lemma total_minutes_bound (l : list Obj) :
  (0 ≤ total_minutes l ≤ 1439 * Z.of_nat (length l))%Z.
Proof.
  induction l as [|a l IH]; [cbn; lia|].
  cbn [total_minutes foldr length]. fold (total_minutes l).
  assert (0 ≤ shift_minutes a < 1440)%Z by (apply Z.mod_pos_bound; lia). lia.
Qed.

(** X21: when every activity of the action work has its times written
    [HH:MM], the average is taken over the minutes from start to end of each
    activity, an end earlier than the start counting as the next day; every
    activity thus contributes between 0 and 1439 minutes, and without any
    such activity the result is the number 0. *)
Theorem calculateAverageWorkHours_total (acts : list Obj) :
  Forall hhmm_times (work_activities acts) →
  calculateAverageWorkHours acts
  = Returned (if decide (work_activities acts = []) then Zero
              else ToFixed1 (Some (total_minutes (work_activities acts)))
                     (length (work_activities acts)))
  ∧ (0 ≤ total_minutes (work_activities acts)
       ≤ 1439 * Z.of_nat (length (work_activities acts)))%Z.
Proof.
  intros Hall. split; [|apply total_minutes_bound].
  unfold calculateAverageWorkHours. rewrite work_filter.
  destruct (work_activities acts) as [|a l] eqn:E; [done|].
  rewrite decide_False by done. rewrite sum_work_minutes_total by done.
  replace (length (a :: l) =? 0)%nat with false by done.
  by rewrite Z.add_0_l.
Qed.

Lemma calculateAverageWorkHours_total_witness :
  let shift (id s e : string) : Obj :=
    <["id" := VStr id]> (<["actionId" := VStr "work"]>
      (<["startTime" := VStr s]> (<["endTime" := VStr e]> ∅))) in
  let acts := [ shift "1" "09:00" "17:30"; activity_on "2" "run" "2024-06-05";
                shift "3" "22:00" "02:00" ] in
  Forall hhmm_times (work_activities acts)
  ∧ calculateAverageWorkHours acts = Returned (ToFixed1 (Some 750%Z) 2).
Proof.
  intros shift acts.
  assert (Forall hhmm_times (work_activities acts)) as H.
  { change (work_activities acts)
      with [shift "1" "09:00" "17:30"; shift "3" "22:00" "02:00"].
    repeat constructor.
    - exists 540%Z, 1050%Z. repeat split; (lia || reflexivity).
    - exists 1320%Z, 120%Z. repeat split; (lia || reflexivity). }
  split; [exact H|].
  rewrite (proj1 (calculateAverageWorkHours_total acts H)). reflexivity.
Defined.

End AverageFurther.

Section DaysSinceFurther.

Import Analytics.

Lemma newest_first_numeric (a b : Obj) :
  numeric_timestamp a → numeric_timestamp b →
  newest_first a b = (timestamp_of b - timestamp_of a)%Z.
Proof.
  intros [n Hn] [m Hm]. unfold newest_first, timestamp_of, timestamp_number.
  by rewrite Hn, Hm.
Qed.

Lemma insert_newest_perm (a : Obj) (l : list Obj) : insert_newest a l ≡ₚ a :: l.
Proof.
  induction l as [|b l IH]; [done|]. cbn.
  destruct (_ <=? 0)%Z; [done|]. rewrite IH. apply Permutation_swap.
Qed.

Lemma sort_newest_first_perm (l : list Obj) : sort_newest_first l ≡ₚ l.
Proof.
  induction l as [|a l IH]; [done|]. cbn. by rewrite insert_newest_perm, IH.
Qed.

(** The record that comes first has the greatest timestamp. *)
Lemma sort_newest_first_head (l : list Obj) :
  Forall numeric_timestamp l → l ≠ [] →
  ∃ a rest, sort_newest_first l = a :: rest
            ∧ a ∈ l ∧ ∀ b, b ∈ l → (timestamp_of b ≤ timestamp_of a)%Z.
Proof.
  induction 1 as [|x l Hx Hl IH]; intros Hne; [done|].
  cbn [sort_newest_first foldr]. fold (sort_newest_first l).
  destruct l as [|y l'].
  { exists x, []. split; [done|]. split; [by left|].
    intros b Hb. apply list_elem_of_singleton in Hb. by subst. }
  destruct IH as (a & rest & Hsort & Ha & Hmax); [done|].
  rewrite Hsort. cbn [insert_newest].
  assert (numeric_timestamp a) as Hna.
  { rewrite Forall_forall in Hl. by apply Hl. }
  rewrite (newest_first_numeric x a Hx Hna).
  destruct (Z.leb_spec (timestamp_of a - timestamp_of x) 0).
  - exists x, (a :: rest). split; [done|]. split; [by left|].
    intros b Hb. apply elem_of_cons in Hb as [->|Hb]; [lia|].
    specialize (Hmax b Hb). lia.
  - exists a, (insert_newest x rest). split; [done|]. split; [by right|].
    intros b Hb. apply elem_of_cons in Hb as [->|Hb]; [lia|]. by apply Hmax.
Qed.

Lemma occurrences_spec (acts : list Obj) (actionId : string) (a : Obj) :
  a ∈ occurrences acts actionId
  ↔ a ∈ acts ∧ a !! "actionId" = Some (VStr actionId) ∧ truthy (a !! "date") = true.
Proof.
  unfold occurrences. rewrite !list_elem_of_In, !filter_In, prop_is_true. tauto.
Qed.

(** X22: [calculateDaysSinceLastOccurrence] is 0 without a dated activity
    of the action; otherwise it takes such an activity with the greatest
    timestamp and returns the number of days from its date to today when
    local time is UTC or behind it, and one day less when local time is
    ahead of UTC (so minus one for an occurrence dated today). *)
Theorem calculateDaysSinceLastOccurrence_spec (today : Z * Z * Z) (offset : Z)
    (acts : list Obj) (actionId : string) :
  valid_dates acts →
  Forall numeric_timestamp acts →
  (- DAY_MS < offset < DAY_MS)%Z →
  let found := occurrences acts actionId in
  if decide (found = [])
  then calculateDaysSinceLastOccurrence today offset acts actionId = Some 0%Z
  else ∃ a d,
         a ∈ found
         ∧ (∀ b, b ∈ found → (timestamp_of b ≤ timestamp_of a)%Z)
         ∧ act_day a = Some d
         ∧ calculateDaysSinceLastOccurrence today offset acts actionId
           = Some (civil_day today - d - (if (0 <? offset)%Z then 1 else 0))%Z.
Proof.
  intros Hvalid Hnum Hoff found. unfold calculateDaysSinceLastOccurrence.
  fold (occurrences acts actionId). fold found.
  destruct (decide (found = [])) as [->|Hne]; [done|].
  assert (Forall numeric_timestamp found) as Hnf.
  { rewrite Forall_forall in *. intros a Ha. apply Hnum.
    by apply occurrences_spec in Ha as [? _]. }
  destruct (sort_newest_first_head found Hnf Hne) as (a & rest & Hsort & Ha & Hmax).
  rewrite Hsort.
  replace (length found =? 0)%nat with false by (by destruct found).
  pose proof Ha as Ha'. apply occurrences_spec in Ha' as (Hin & _ & Htruthy).
  unfold valid_dates in Hvalid. rewrite Forall_forall in Hvalid.
  destruct (Hvalid a Hin Htruthy) as [d Hd].
  exists a, d. split; [done|]. split; [done|]. split; [done|].
  unfold act_day in Hd. destruct (a !! "date") as [[| | |s|]|]; try done.
  cbn [mbind option_bind date_time]. rewrite Hd.
  cbn [fmap option_fmap option_map mbind option_bind].
  destruct today as [[y m] dd]. cbn [civil_day]. f_equal.
  unfold DAY_MS in *. change (1000 * 60 * 60 * 24)%Z with 86400000%Z in *.
  destruct (Z.ltb_spec 0 offset); Z.div_mod_to_equations; lia.
Qed.

Lemma calculateDaysSinceLastOccurrence_spec_witness :
  let stamped (id date : string) (t : Z) : Obj :=
    <["timestamp" := VNum t]> (activity_on id "diet-unhealthy" date) in
  let acts := [ stamped "1" "2024-06-01" 100; stamped "2" "2024-06-03" 300;
                stamped "3" "2024-06-02" 200 ] in
  let today := (2024, 6, 5)%Z in
  let offset := 19800000%Z in
  valid_dates acts
  ∧ Forall numeric_timestamp acts
  ∧ (- DAY_MS < offset < DAY_MS)%Z
  ∧ calculateDaysSinceLastOccurrence today offset acts "diet-unhealthy" = Some 1%Z
  ∧ ∃ a d,
      a ∈ occurrences acts "diet-unhealthy"
      ∧ (∀ b, b ∈ occurrences acts "diet-unhealthy"
              → (timestamp_of b ≤ timestamp_of a)%Z)
      ∧ act_day a = Some d
      ∧ calculateDaysSinceLastOccurrence today offset acts "diet-unhealthy"
        = Some (civil_day today - d - (if (0 <? offset)%Z then 1 else 0))%Z.
Proof.
  intros stamped acts today offset.
  assert (valid_dates acts) as H1.
  { repeat constructor; intros _; eexists; vm_compute; reflexivity. }
  assert (Forall numeric_timestamp acts) as H2.
  { repeat constructor; eexists; vm_compute; reflexivity. }
  assert (- DAY_MS < offset < DAY_MS)%Z as H3 by (vm_compute; intuition discriminate).
  split; [exact H1|]. split; [exact H2|]. split; [exact H3|].
  split; [vm_compute; reflexivity|].
  pose proof (calculateDaysSinceLastOccurrence_spec today offset acts
                "diet-unhealthy" H1 H2 H3) as Hspec.
  cbv zeta in Hspec. rewrite decide_False in Hspec by done. exact Hspec.
Defined.

End DaysSinceFurther.

(** * Further properties of the selections and the dashboard *)

Section SelectionFurther.

Import SyncStorage Analytics.

Lemma filter_bool_prop {A} (f : A → bool) (P : A → Prop) `{!∀ x, Decision (P x)}
    (l : list A) :
  (∀ x, f x = true ↔ P x) → List.filter f l = filter P l.
Proof.
  intros Hf. induction l as [|a l IH]; [done|].
  cbn [List.filter]. rewrite filter_cons.
  destruct (f a) eqn:E.
  - rewrite decide_True by (by apply Hf). by rewrite IH.
  - rewrite decide_False; [done|]. intros HP. apply Hf in HP. congruence.
Qed.

Lemma date_is_day (s : string) (d : Z) (a : Obj) :
  parse_date s = Some d →
  prop_is "date" s a = true ↔ act_day a = Some d.
Proof.
  intros Hs. rewrite prop_is_true. unfold act_day. split.
  - by intros ->.
  - destruct (a !! "date") as [[| | |t|]|]; try done.
    intros Ht. by rewrite (parse_date_inj t s d Ht Hs).
Qed.

Lemma getActivitiesByDate_filter (dateStr : string) (d : Z) (st : Collections) :
  parse_date dateStr = Some d →
  getActivitiesByDate dateStr st = filter (λ a, act_day a = Some d) (getActivities st).
Proof.
  intros Hs. unfold getActivitiesByDate.
  apply filter_bool_prop. intros a. by apply date_is_day.
Qed.

(** X23: when [dateStr] is a well-formed date, [getActivitiesByDate] and
    [getActivitiesByLocalDate] both return, in stored order, exactly the
    activities whose date is that calendar day. *)
Theorem getActivitiesByDate_day (dateStr : string) (d : Z) (st : Collections) :
  parse_date dateStr = Some d →
  getActivitiesByDate dateStr st = filter (λ a, act_day a = Some d) (getActivities st)
  ∧ getActivitiesByLocalDate dateStr st = getActivitiesByDate dateStr st.
Proof.
  intros Hs. split; [|done]. by apply getActivitiesByDate_filter.
Qed.

Lemma getActivitiesByDate_day_witness :
  let st := {| activities := Some [ activity_on "1" "exercise" "2024-06-04";
                                    activity_on "2" "work" "2024-06-05";
                                    activity_on "3" "exercise" "2024-06-05" ];
               actions := None |} in
  parse_date "2024-06-05" = Some 19879%Z
  ∧ getActivitiesByDate "2024-06-05" st
    = filter (λ a, act_day a = Some 19879%Z) (getActivities st)
  ∧ getActivitiesByLocalDate "2024-06-05" st = getActivitiesByDate "2024-06-05" st.
Proof.
  intros st.
  assert (parse_date "2024-06-05" = Some 19879%Z) as H by (vm_compute; reflexivity).
  split; [exact H|]. exact (getActivitiesByDate_day "2024-06-05" 19879 st H).
Defined.

Lemma insert_newest_sorted (x : Obj) (l : list Obj) :
  numeric_timestamp x → Forall numeric_timestamp l →
  Sorted (λ a b, timestamp_of b ≤ timestamp_of a)%Z l →
  Sorted (λ a b, timestamp_of b ≤ timestamp_of a)%Z (insert_newest x l).
Proof.
  intros Hx Hl Hs. induction Hs as [|a l Hs IH Hhd]; cbn [insert_newest].
  - by repeat constructor.
  - apply Forall_cons in Hl as [Ha Hl].
    rewrite (newest_first_numeric x a Hx Ha).
    destruct (Z.leb_spec (timestamp_of a - timestamp_of x) 0).
    + constructor; [by constructor|]. constructor. lia.
    + constructor; [by apply IH|].
      destruct Hhd as [|b l' Hb]; cbn [insert_newest].
      * constructor. lia.
      * apply Forall_cons in Hl as [Hnb _].
        rewrite (newest_first_numeric x b Hx Hnb).
        destruct (_ <=? 0)%Z; constructor; lia.
Qed.

Lemma sort_newest_first_sorted (l : list Obj) :
  Forall numeric_timestamp l →
  Sorted (λ a b, timestamp_of b ≤ timestamp_of a)%Z (sort_newest_first l).
Proof.
  induction 1 as [|x l Hx Hl IH]; [constructor|].
  cbn [sort_newest_first foldr]. fold (sort_newest_first l).
  apply insert_newest_sorted; [done| |done].
  by rewrite sort_newest_first_perm.
Qed.

(** X24: the dashboard's list of today's activities holds, each once, exactly
    the stored activities dated on today's local calendar day, and when their
    timestamps are numbers it lists them from the newest to the oldest. *)
Theorem renderTodayActivities_today (today : Z * Z * Z) (st : Collections) :
  valid_civil today → (1000 ≤ today.1.1 ≤ 9999)%Z →
  let shown := Dashboard.renderTodayActivities today st in
  shown ≡ₚ filter (λ a, act_day a = Some (civil_day today)) (getActivities st)
  ∧ (Forall numeric_timestamp (getActivities st) →
     Sorted (λ a b, timestamp_of b ≤ timestamp_of a)%Z shown).
Proof.
  intros Hvalid Hyear shown. subst shown. unfold Dashboard.renderTodayActivities.
  pose proof (parse_local_date_string today Hvalid Hyear) as Hparse.
  pose proof (getActivitiesByDate_filter (local_date_string today) (civil_day today)
                st Hparse) as Hsel.
  cbv zeta. rewrite Hsel.
  set (l := filter _ _). split.
  - destruct l as [|a l'] eqn:E; [done|].
    change (length (a :: l') =? 0)%nat with false. cbv iota.
    apply sort_newest_first_perm.
  - intros Hnum. destruct l as [|a l'] eqn:E; [constructor|].
    change (length (a :: l') =? 0)%nat with false. cbv iota.
    apply sort_newest_first_sorted. rewrite <- E. subst l.
    rewrite Forall_forall in *. intros b Hb. apply Hnum.
    by apply list_elem_of_filter in Hb as [_ ?].
Qed.

Lemma renderTodayActivities_today_witness :
  let stamped (id date : string) (t : Z) : Obj :=
    <["timestamp" := VNum t]> (activity_on id "exercise" date) in
  let st := {| activities := Some [ stamped "1" "2024-06-05" 100;
                                    stamped "2" "2024-06-04" 200;
                                    stamped "3" "2024-06-05" 300 ];
               actions := None |} in
  let today := (2024, 6, 5)%Z in
  valid_civil today
  ∧ (1000 ≤ today.1.1 ≤ 9999)%Z
  ∧ ids (Dashboard.renderTodayActivities today st) = [Some (VStr "3"); Some (VStr "1")]
  ∧ Dashboard.renderTodayActivities today st
    ≡ₚ filter (λ a, act_day a = Some (civil_day today)) (getActivities st).
Proof.
  intros stamped st today.
  assert (valid_civil today) as H1 by (vm_compute; intuition discriminate).
  assert (1000 ≤ today.1.1 ≤ 9999)%Z as H2 by (vm_compute; intuition discriminate).
  split; [exact H1|]. split; [exact H2|]. split; [vm_compute; reflexivity|].
  exact (proj1 (renderTodayActivities_today today st H1 H2)).
Defined.

(** X25: [getGoodHabitActions] and [getBadHabitActions] each return part of
    the catalog in catalog order; no action is on both lists, and both
    leave the store as [getActions] leaves it. *)
Theorem habit_actions_apart (st : Collections) :
  let good := getGoodHabitActions st in
  let bad := getBadHabitActions st in
  good.1 `sublist_of` (getActions st).1
  ∧ bad.1 `sublist_of` (getActions st).1
  ∧ (∀ a, a ∈ good.1 → a ∉ bad.1)
  ∧ (length good.1 + length bad.1 ≤ length (getActions st).1)%nat
  ∧ good.2 = (getActions st).2 ∧ bad.2 = (getActions st).2.
Proof.
  unfold getGoodHabitActions, getBadHabitActions.
  destruct (getActions st) as [catalog st1]. cbn [fst snd].
  split; [apply sublist_filter_bool|]. split; [apply sublist_filter_bool|].
  split; [|split; [|done]].
  - intros a. rewrite !list_elem_of_In, !filter_In, !prop_is_true.
    intros [_ Hg] [_ Hb]. congruence.
  - induction catalog as [|a l IH]; [done|]. cbn [List.filter].
    destruct (prop_is "type" "good" a) eqn:Eg, (prop_is "type" "bad" a) eqn:Eb;
      cbn [length]; try lia.
    apply prop_is_true in Eg, Eb. congruence.
Qed.

Lemma existsb_false_filters {A} (f g : A → bool) (l : list A) :
  existsb (λ a, f a || g a) l = false
  ↔ List.filter f l = [] ∧ List.filter g l = [].
Proof.
  induction l as [|a l IH]; [done|]. cbn [existsb List.filter].
  destruct (f a), (g a); cbn [orb]; rewrite ?IH; intuition discriminate.
Qed.

(** X26: [deleteAction(id)] goes through exactly when
    [getActivitiesByActionId(id)] and [getActivitiesByType(id)] are both
    empty; otherwise it returns [false] and changes nothing. *)
Theorem deleteAction_selectors (id : string) (st : Collections) :
  ((deleteAction id st).1 = true
   ↔ getActivitiesByActionId id st = [] ∧ getActivitiesByType id st = [])
  ∧ ((deleteAction id st).1 = false → (deleteAction id st).2 = st).
Proof.
  rewrite deleteAction_result.
  unfold getActivitiesByActionId, getActivitiesByType.
  rewrite <- existsb_false_filters.
  destruct (existsb _ _); cbn [fst snd]; intuition discriminate.
Qed.

End SelectionFurther.
